(** * mcp-heritage: the parent gateway of [parent.js]

  A shallow embedding of the schema translator
  ([jsonSchemaPropertyToZod], [jsonSchemaToZodSchema]) and of the
  start-up loop and proxy handler of [main], together with the part of
  the two libraries the program calls: the validators of zod (the
  single-argument [z.record] the source uses is the zod 3 interface, and
  the validators follow zod 3) and the tool table of the SDK's
  [McpServer]. *)

From Stdlib Require Import QArith.
From Stdlib Require DecimalString.
From stdpp Require Import base option list strings gmap.

Set Warnings "-register-all".
Local Open Scope string_scope.
Local Open Scope list_scope.

(** ** JavaScript values *)

(** The values a schema, an argument or a result is made of: what
  [JSON.parse] produces, and [undefined] for what is absent.  An object
  is the list of its own properties in property order; a read takes the
  first binding of a name. *)
Inductive value : Type :=
  | VUndefined
  | VNull
  | VBool (b : bool)
  | VNum (q : Q)
  | VStr (s : string)
  | VArr (elems : list value)
  | VObj (fields : list (string * value)).

Module Js.

(** ToBoolean *)
Definition truthy (v : value) : bool :=
  match v with
  | VUndefined | VNull => false
  | VBool b => b
  | VNum q => negb (Z.eqb (Qnum q) 0)
  | VStr s => negb (String.eqb s "")
  | VArr _ | VObj _ => true
  end.

(** [typeof v === 'object'] *)
Definition typeof_object (v : value) : bool :=
  match v with
  | VNull | VArr _ | VObj _ => true
  | _ => false
  end.

Definition isArray (v : value) : bool :=
  match v with VArr _ => true | _ => false end.

(** [v === s] for a string literal [s] *)
Definition is_str (v : value) (s : string) : bool :=
  match v with VStr s' => String.eqb s' s | _ => false end.

(** [v === true] *)
Definition is_true (v : value) : bool :=
  match v with VBool true => true | _ => false end.

(** [Number.isInteger] on a rational *)
Definition isInteger (q : Q) : bool :=
  Z.eqb (Qnum q mod Zpos (Qden q)) 0.

Fixpoint assoc_get {A} (k : string) (l : list (string * A)) : option A :=
  match l with
  | [] => None
  | (k', a) :: l => if String.eqb k' k then Some a else assoc_get k l
  end.

(** [o[k] = a] on an own-property list: an existing name keeps its
    place, a new one goes last. *)
Fixpoint assoc_set {A} (k : string) (a : A) (l : list (string * A))
  : list (string * A) :=
  match l with
  | [] => [(k, a)]
  | (k', a') :: l =>
      if String.eqb k' k then (k', a) :: l else (k', a') :: assoc_set k a l
  end.

Definition has_key {A} (k : string) (l : list (string * A)) : bool :=
  match assoc_get k l with Some _ => true | None => false end.

(** [v.k] for the names this program reads ([type], [enum], [items],
    [properties], [required], [nullable]): none of them is a property of
    an array, a string, a number or a boolean, and the program never
    reads them from [undefined] or [null]. *)
Definition prop (v : value) (k : string) : value :=
  match v with
  | VObj fields => default VUndefined (assoc_get k fields)
  | _ => VUndefined
  end.

Definition index_key (i : nat) : string :=
  DecimalString.NilZero.string_of_uint (Nat.to_uint i).

Fixpoint indexed {A} (i : nat) (l : list A) : list (string * A) :=
  match l with
  | [] => []
  | a :: l => (index_key i, a) :: indexed (S i) l
  end.

Fixpoint chars (s : string) : list value :=
  match s with
  | EmptyString => []
  | String c s => VStr (String c EmptyString) :: chars s
  end.

(** [Object.entries(v)] for [v] other than [undefined] and [null] *)
Definition entries (v : value) : list (string * value) :=
  match v with
  | VObj fields => fields
  | VArr elems => indexed 0 elems
  | VStr s => indexed 0 (chars s)
  | _ => []
  end.

(** [{ ...v, [k]: x }] *)
Definition spread_with (v : value) (k : string) (x : value) : value :=
  VObj (assoc_set k x (entries v)).

(** [arr.includes(s)] for a string [s] *)
Definition includes_str (arr : list value) (s : string) : bool :=
  existsb (fun v => is_str v s) arr.

(** [arr[i]] *)
Definition at_index (arr : list value) (i : nat) : value :=
  nth i arr VUndefined.

(** The names every plain object inherits from [Object.prototype]: a
    read [o[k]] of one of them on an object without that own property
    finds a function (or, for ["__proto__"], the prototype itself), which
    is truthy. *)
Definition prototype_members : list string :=
  ["constructor"; "hasOwnProperty"; "isPrototypeOf"; "propertyIsEnumerable";
   "toLocaleString"; "toString"; "valueOf"; "__proto__";
   "__defineGetter__"; "__defineSetter__"; "__lookupGetter__"; "__lookupSetter__"].

Definition inherited (k : string) : bool :=
  existsb (String.eqb k) prototype_members.

(** [a || b] *)
Definition or_else (a b : value) : value := if truthy a then a else b.

(** [a ?? b] *)
Definition nullish_or (a b : value) : value :=
  match a with VUndefined | VNull => b | _ => a end.

End Js.

(** ** zod validators *)

(** The validators the translator builds, as the tree of constructor
  calls: [z.any()], [z.string()], [z.enum(values)], [z.number()] and
  [z.number().int()], [z.boolean()], [z.array(element)],
  [z.object(shape)], [z.record(valueType)], [z.null()], [.nullable()],
  [.optional()]. *)
Inductive zod : Type :=
  | ZodAny
  | ZodString
  | ZodEnum (values : list value)
  | ZodNumber (int : bool)
  | ZodBoolean
  | ZodArray (element : zod)
  | ZodObject (shape : list (string * zod))
  | ZodRecord (valueType : zod)
  | ZodNull
  | ZodNullable (inner : zod)
  | ZodOptional (inner : zod).

Module Zod.

(** [mergeObjectSync]: a pair is written to the result unless its key is
    ["__proto__"], or its value is [undefined] and the key is not in the
    input. *)
Definition merge_pair (key : string) (v : value) (alwaysSet : bool)
           (rest : list (string * value)) : list (string * value) :=
  if negb (String.eqb key "__proto__")
     && (negb (match v with VUndefined => true | _ => false end) || alwaysSet)
  then Js.assoc_set key v rest else rest.

(** [schema.safeParse(data)]: [Some] of the parsed data on success,
    [None] when there is an issue.  An object validator reads each key of
    its shape from the input and drops all other keys; a record
    validator parses every own key of the input.  Inputs are values of
    [JSON.parse], and the read of a key is the read of an own property:
    for a key of the shape that names a member of [Object.prototype]
    (see [Js.prototype_members]) and is not an own property of the
    input, zod reads the inherited member instead, which is outside this
    model. *)
Fixpoint parse (schema : zod) (data : value) {struct schema} : option value :=
  match schema with
  | ZodAny => Some data
  | ZodString =>
      match data with VStr _ => Some data | _ => None end
  | ZodEnum values =>
      match data with
      | VStr s => if Js.includes_str values s then Some data else None
      | _ => None
      end
  | ZodNumber int =>
      match data with
      | VNum q => if int && negb (Js.isInteger q) then None else Some data
      | _ => None
      end
  | ZodBoolean =>
      match data with VBool _ => Some data | _ => None end
  | ZodArray element =>
      match data with
      | VArr elems => VArr <$> mapM (parse element) elems
      | _ => None
      end
  | ZodObject shape =>
      match data with
      | VObj fields =>
          VObj <$>
            (fix pairs (acc : list (string * value)) (sh : list (string * zod)) :=
               match sh with
               | [] => Some acc
               | (key, keyValidator) :: sh =>
                   v ← parse keyValidator (default VUndefined (Js.assoc_get key fields));
                   pairs (merge_pair key v (Js.has_key key fields) acc) sh
               end) [] shape
      | _ => None
      end
  | ZodRecord valueType =>
      match data with
      | VObj fields =>
          VObj <$>
            (fix pairs (acc : list (string * value)) (fs : list (string * value)) :=
               match fs with
               | [] => Some acc
               | (key, x) :: fs =>
                   v ← parse valueType x;
                   pairs (merge_pair key v true acc) fs
               end) [] fields
      | _ => None
      end
  | ZodNull =>
      match data with VNull => Some data | _ => None end
  | ZodNullable inner =>
      match data with VNull => Some VNull | _ => parse inner data end
  | ZodOptional inner =>
      match data with VUndefined => Some VUndefined | _ => parse inner data end
  end.

Definition accepts (schema : zod) (data : value) : bool :=
  bool_decide (is_Some (parse schema data)).

End Zod.

(** ** The schema translator *)

(** The cases of [switch (type)]: the comparison is strict equality with
  the seven string literals, everything else is the [default] case. *)
Inductive kind : Type :=
  | KString | KNumber | KInteger | KBoolean | KArray | KObject | KNull | KDefault.

Definition kind_of (type : value) : kind :=
  if Js.is_str type "string" then KString
  else if Js.is_str type "number" then KNumber
  else if Js.is_str type "integer" then KInteger
  else if Js.is_str type "boolean" then KBoolean
  else if Js.is_str type "array" then KArray
  else if Js.is_str type "object" then KObject
  else if Js.is_str type "null" then KNull
  else KDefault.

(** [shape[key] = validator] on the literal [shape = {}]: the name
  ["__proto__"] goes to the prototype setter and adds no own property. *)
Definition shape_assign (key : string) (validator : zod)
           (shape : list (string * zod)) : list (string * zod) :=
  if String.eqb key "__proto__" then shape else Js.assoc_set key validator shape.

(** [t => t !== 'null'] *)
Definition not_null_type (t : value) : bool := negb (Js.is_str t "null").

(** The loop of the [object] case: [shape[key] = self(value)] for each
    entry of [properties]. *)
Definition translate_properties (self : value -> option zod)
  : list (string * zod) -> list (string * value) -> option (list (string * zod)) :=
  fix loop shape es :=
    match es with
    | [] => Some shape
    | (key, v) :: es =>
        validator ← self v; loop (shape_assign key validator shape) es
    end.

(** [switch (type)] *)
Definition switch_type (self : value -> option zod)
           (propertySchema type : value) : option zod :=
  match kind_of type with
  | KString =>
      match Js.prop propertySchema "enum" with
      | VArr values => Some (ZodEnum values)
      | _ => Some ZodString
      end
  | KNumber => Some (ZodNumber false)
  | KInteger => Some (ZodNumber true)
  | KBoolean => Some ZodBoolean
  | KArray =>
      let items := Js.prop propertySchema "items" in
      if Js.truthy items then ZodArray <$> self items
      else Some (ZodArray ZodAny)
  | KObject =>
      let properties := Js.prop propertySchema "properties" in
      if Js.truthy properties
      then ZodObject <$> translate_properties self [] (Js.entries properties)
      else Some (ZodRecord ZodAny)
  | KNull => Some ZodNull
  | KDefault => Some ZodAny
  end.

(** The test of [// Handle nullable]. *)
Definition marked_nullable (propertySchema : value) : bool :=
  negb (Js.is_str (Js.prop propertySchema "type") "null")
  && (Js.is_true (Js.prop propertySchema "nullable")
      || match Js.prop propertySchema "type" with
         | VArr types => Js.includes_str types "null"
         | _ => false
         end).

Definition handle_nullable (propertySchema : value) (zodSchema : zod) : zod :=
  if marked_nullable propertySchema then ZodNullable zodSchema else zodSchema.

(** The body of [jsonSchemaPropertyToZod], with the recursive calls made
    through [self]. *)
Definition jsonSchemaPropertyToZod_body
           (self : value -> option zod) (propertySchema : value) : option zod :=
  if negb (Js.truthy propertySchema) || negb (Js.typeof_object propertySchema)
  then Some ZodAny
  else
    let type := Js.prop propertySchema "type" in
    match type with
    | VArr types =>
        let nonNullTypes := List.filter not_null_type types in
        if Js.includes_str types "null" && Nat.eqb (length nonNullTypes) 1
        then ZodNullable <$>
               self (Js.spread_with propertySchema "type" (Js.at_index nonNullTypes 0))
        else self (Js.spread_with propertySchema "type" (Js.at_index types 0))
    | _ =>
        zodSchema ← switch_type self propertySchema type;
        Some (handle_nullable propertySchema zodSchema)
    end.

(** [jsonSchemaPropertyToZod] on a call stack that has room for [fuel]
  nested calls of it: every recursive call takes one frame, and [None]
  is the call that finds no frame left. *)
Fixpoint jsonSchemaPropertyToZod_fuel (fuel : nat) : value -> option zod :=
  match fuel with
| O => fun _ => None
| S fuel => jsonSchemaPropertyToZod_body (jsonSchemaPropertyToZod_fuel fuel)
  end.

(** The number of nodes of a value, the measure that bounds the calls. *)
Fixpoint size (v : value) : nat :=
  match v with
| VArr elems => 2 + list_sum (map size elems)
| VObj fields => 2 + list_sum (map (fun kv => size (snd kv)) fields)
| _ => 1
  end.

(** The validator a call of [jsonSchemaPropertyToZod] returns when the
  stack is deep enough for it to return
  ([jsonSchemaPropertyToZod_on] below is the call on a given stack). *)
Definition jsonSchemaPropertyToZod (propertySchema : value) : zod :=
  default ZodAny (jsonSchemaPropertyToZod_fuel (size propertySchema) propertySchema).


(** ** Exceptions *)

(** What a call of this program can throw: a [TypeError] or a
    [RangeError] of the language, an [Error] or an [McpError] raised by
    the SDK's server, and the rejection of a promise of the SDK's client
    (a failed connection, discovery or invocation). *)
Inductive js_error : Type :=
| TypeError (message : string)
| RangeError (message : string)
| Error (message : string)
| McpError (code : Z) (message : string)
| Rejected (reason : string).

(** [ErrorCode.InvalidParams] *)
Definition InvalidParams : Z := -32602.

Inductive result (A : Type) : Type :=
| Ok (a : A)
| Throw (e : js_error).
Arguments Ok {A} a.
Arguments Throw {A} e.

#[export] Instance result_ret : MRet result := fun A a => Ok a.
#[export] Instance result_bind : MBind result := fun A B f r =>
  match r with Ok a => f a | Throw e => Throw e end.

(** ** The top-level translator *)

(** What [jsonSchemaToZodSchema] returns: a zod schema ([z.record(z.any())])
    or a raw shape, the plain object of validators that [registerTool]
    wraps in [z.object]. *)
Inductive input_schema : Type :=
| ZodSchema (schema : zod)
| RawShape (shape : list (string * zod)).

(** [required.includes(key)]: [Array.prototype.includes] on an array,
    [String.prototype.includes] (a substring test) on a string, and a
    [TypeError] on any other truthy value, which has no callable
    [includes]. *)
Definition required_includes (required : value) (key : string) : result bool :=
  match required with
  | VArr names => Ok (Js.includes_str names key)
  | VStr s => Ok (bool_decide (is_Some (String.index 0 key s)))
  | _ => Throw (TypeError "required.includes is not a function")
  end.

(** The loop of [jsonSchemaToZodSchema]: a property that is not in
    [required] is made optional. *)
Definition translate_required (required : value)
  : list (string * zod) -> list (string * value) -> result (list (string * zod)) :=
  fix loop shape es :=
    match es with
    | [] => Ok shape
    | (key, propertySchema) :: es =>
        let zodProperty := jsonSchemaPropertyToZod propertySchema in
        included ← required_includes required key;
        loop (shape_assign key
                (if negb included then ZodOptional zodProperty else zodProperty)
                shape) es
    end.

Definition jsonSchemaToZodSchema (jsonSchema : value) : result input_schema :=
  if negb (Js.truthy jsonSchema) || negb (Js.is_str (Js.prop jsonSchema "type") "object")
  then Ok (ZodSchema (ZodRecord ZodAny))
  else
    let properties := Js.or_else (Js.prop jsonSchema "properties") (VObj []) in
    let required := Js.or_else (Js.prop jsonSchema "required") (VArr []) in
    shape ← translate_required required [] (Js.entries properties);
    if Nat.eqb (length shape) 0
    then Ok (ZodSchema (ZodRecord ZodAny))
    else Ok (RawShape shape).

(** ** The translators on a bounded call stack *)

(** The engine ends a call chain that outgrows the stack with this
    [RangeError]. *)
Definition stack_overflow : js_error :=
  RangeError "Maximum call stack size exceeded".

(** A call of [jsonSchemaPropertyToZod] when the stack has room for
    [stack] nested calls of it. *)
Definition jsonSchemaPropertyToZod_on (stack : nat) (propertySchema : value)
  : result zod :=
  match jsonSchemaPropertyToZod_fuel stack propertySchema with
  | Some zodSchema => Ok zodSchema
  | None => Throw stack_overflow
  end.

(** The loop of [jsonSchemaToZodSchema] on that stack: the property is
    translated first, then looked up in [required]. *)
Definition translate_required_on (stack : nat) (required : value)
  : list (string * zod) -> list (string * value) -> result (list (string * zod)) :=
  fix loop shape es :=
    match es with
    | [] => Ok shape
    | (key, propertySchema) :: es =>
        zodProperty ← jsonSchemaPropertyToZod_on stack propertySchema;
        included ← required_includes required key;
        loop (shape_assign key
                (if negb included then ZodOptional zodProperty else zodProperty)
                shape) es
    end.

(** A call of [jsonSchemaToZodSchema] when the stack has room for [stack]
    nested calls of [jsonSchemaPropertyToZod] above it. *)
Definition jsonSchemaToZodSchema_on (stack : nat) (jsonSchema : value)
  : result input_schema :=
  if negb (Js.truthy jsonSchema) || negb (Js.is_str (Js.prop jsonSchema "type") "object")
  then Ok (ZodSchema (ZodRecord ZodAny))
  else
    let properties := Js.or_else (Js.prop jsonSchema "properties") (VObj []) in
    let required := Js.or_else (Js.prop jsonSchema "required") (VArr []) in
    shape ← translate_required_on stack required [] (Js.entries properties);
    if Nat.eqb (length shape) 0
    then Ok (ZodSchema (ZodRecord ZodAny))
    else Ok (RawShape shape).

(** The least stack on which a schema is translated, searched upward
    from [from] among [n] candidates. *)
Fixpoint least_stack (n from : nat) (ps : value) : nat :=
  match n with
  | O => from
  | S n =>
      match jsonSchemaPropertyToZod_fuel from ps with
      | Some _ => from
      | None => least_stack n (S from) ps
      end
  end.

(** The depth of the calls of [jsonSchemaPropertyToZod] on a schema: the
    number of its frames that the longest chain of nested calls holds at
    once, the call on the schema itself included. *)
Definition depth (ps : value) : nat := least_stack (size ps) 0 ps.

(** [depth] arrays one inside the other around a string schema:
    [{type: 'array', items: {type: 'array', items: ... }}]. *)
Fixpoint nested_arrays (depth : nat) : value :=
  match depth with
  | O => VObj [("type", VStr "string")]
  | S depth => VObj [("type", VStr "array"); ("items", nested_arrays depth)]
  end.

(** ** Upstreams, the SDK's client and server *)

Record child_config : Type := { id : string; url : string }.

Record gateway_config : Type :=
  { name : string; version : string; port : Z; childrenConfig : list child_config }.

Definition config : gateway_config :=
  {| name := "mcp-parent-http"; version := "1.0.0"; port := 3030;
     childrenConfig :=
       [ {| id := "mcp-child-a-http"; url := "http://127.0.0.1:3031/mcp" |};
         {| id := "mcp-child-b-http"; url := "http://127.0.0.1:3032/mcp" |} ] |}.

(** A tool as an upstream lists it. *)
Record tool : Type :=
  { tool_name : string; tool_description : value; tool_inputSchema : value }.

(** The parameters of a [tools/call] request. *)
Record call_params : Type := { call_name : string; call_arguments : value }.

(** An upstream service, seen from the gateway through the SDK's client:
    what [client.connect], [client.listTools] and [client.callTool] return
    or throw for it. *)
Record upstream : Type :=
  { on_connect : result unit;
    on_listTools : result (list tool);
    on_callTool : call_params -> result value }.

(** The SDK's [Client] over a [StreamableHTTPClientTransport]. *)
Record client : Type := { client_name : string; transport_url : string }.

(** The arrow function [async (args) => client.callTool(...)] of [main],
    as the two variables it closes over. *)
Record proxy_callback : Type := { owner : client; proxied : tool }.

Record registered_tool : Type :=
  { description : value; inputSchema : zod; callback : proxy_callback }.

(** The server of the SDK.  [_registeredTools] holds the own properties
    of the plain object of that name; what a read of it finds besides
    them is [Js.prototype_members]. *)
Record McpServer : Type :=
  { server_name : string; server_version : string;
    _registeredTools : gmap string registered_tool }.

(** The requests the gateway sends to its upstreams, in order. *)
Inductive rpc : Type :=
| Connect (c : client)
| ListTools (c : client)
| CallTool (c : client) (params : call_params).

(** The state of the gateway process: its server, whether [app.listen]
    was reached, and the requests sent so far. *)
Record process : Type :=
  { server : McpServer; listening : bool; wire : list rpc }.

(** An [async] computation: it runs on the process state and returns or
    throws. *)
Definition Async (A : Type) : Type := process -> process * result A.

#[export] Instance Async_ret : MRet Async := fun A a p => (p, Ok a).
#[export] Instance Async_bind : MBind Async := fun A B f m p =>
  match m p with
  | (p', Ok a) => f a p'
  | (p', Throw e) => (p', Throw e)
  end.

(** A call that returns or throws [r] and leaves the process as it is:
    the answer of an upstream, or a synchronous call. *)
Definition settle {A} (r : result A) : Async A := fun p => (p, r).

(** The process after it has sent the requests [ms]. *)
Definition sent (ms : list rpc) (p : process) : process :=
  {| server := server p; listening := listening p; wire := wire p ++ ms |}.

Definition send (m : rpc) : Async unit := fun p => (sent [m] p, Ok tt).

Abbreviation registry p := (_registeredTools (server p)).

(** [for (const x of l) body(x)] *)
Fixpoint for_of {A} (l : list A) (body : A -> Async unit) : Async unit :=
  match l with
  | [] => mret tt
  | x :: l => body x ≫= fun _ => for_of l body
  end.

Section Gateway.

Variable network : string -> upstream.

Definition Client_connect (c : client) : Async unit :=
  send (Connect c) ≫= fun _ => settle (on_connect (network (transport_url c))).

Definition Client_listTools (c : client) : Async (list tool) :=
  send (ListTools c) ≫= fun _ => settle (on_listTools (network (transport_url c))).

Definition Client_callTool (c : client) (params : call_params) : Async value :=
  send (CallTool c params) ≫= fun _ => settle (on_callTool (network (transport_url c)) params).

(** [new Client({ name: config.id, ... })] over a transport to [config.url] *)
Definition client_of (config : child_config) : client :=
  {| client_name := id config; transport_url := url config |}.

Definition connectChildHttp (config : child_config) : Async client :=
  let client := client_of config in
  Client_connect client ≫= fun _ => mret client.

(** [getZodSchemaObject] of the SDK: a raw shape becomes
    [z.object(shape)].  The SDK tells a raw shape from a schema instance
    by the keys [_def] and [_zod]; a shape that declares a property of
    one of these names is outside this model. *)
Definition getZodSchemaObject (schema : input_schema) : zod :=
  match schema with
  | RawShape shape => ZodObject shape
  | ZodSchema schema => schema
  end.

(** [this._registeredTools[name]] is truthy: the table is a plain object,
    so besides the names registered in it the read finds the members of
    [Object.prototype]. *)
Definition table_has (p : process) (name : string) : bool :=
  bool_decide (is_Some (registry p !! name)) || Js.inherited name.

(** [McpServer.registerTool] of the SDK: a name for which the table read
    is truthy is refused with an [Error]. *)
Definition registerTool (name : string) (description : value)
           (inputSchema : input_schema) (cb : proxy_callback) : Async unit :=
  fun p =>
    if table_has p name
    then (p, Throw (Error ("Tool " +:+ name +:+ " is already registered")))
    else
        ({| server :=
              {| server_name := server_name (server p);
                 server_version := server_version (server p);
                 _registeredTools :=
                   <[name := {| description := description;
                                inputSchema := getZodSchemaObject inputSchema;
                                callback := cb |}]> (registry p) |};
            listening := listening p; wire := wire p |}, Ok tt).

(** The callback [main] registers for [tool] of [client]; its
    [console.log(args)] is left out. *)
Definition proxy_call (cb : proxy_callback) (args : value) : Async value :=
  Client_callTool (owner cb)
    {| call_name := tool_name (proxied cb);
       call_arguments := Js.nullish_or args (VObj []) |}.

(** [app.listen(port, ...)]; a port that cannot be bound ends the process
    and is not part of the model. *)
Definition listen : Async unit := fun p =>
  ({| server := server p; listening := true; wire := wire p |}, Ok tt).

(** The process before [main] runs its loop: [new McpServer(...)]. *)
Definition boot (config : gateway_config) : process :=
  {| server := {| server_name := name config; server_version := version config;
                  _registeredTools := ∅ |};
     listening := false; wire := [] |}.

(** The body of [for (const tool of tools)]. *)
Definition register (client : client) (tool : tool) : Async unit :=
  zodSchema ← settle (jsonSchemaToZodSchema (tool_inputSchema tool));
  registerTool (tool_name tool)
    (Js.nullish_or (tool_description tool) (VStr ""))
    zodSchema
    {| owner := client; proxied := tool |}.

(** The body of [for (const cfg of config.childrenConfig)]. *)
Definition discover (cfg : child_config) : Async unit :=
  client ← connectChildHttp cfg;
  tools ← Client_listTools client;
  for_of tools (register client).

(** [main] up to [app.listen]: the route it installs with [app.post]
    belongs to the transport and is left out. *)
Definition main (config : gateway_config) : Async unit :=
  for_of (childrenConfig config) discover ≫= fun _ => listen.

(** The SDK's handler of a [tools/call] request: look the tool up (the
    read of the table finds a member of [Object.prototype] under its
    name, which has no [enabled] and is reported as disabled), parse
    the arguments with its input schema, run its callback on the parsed
    arguments and return what it returns.  [Throw] stands for the error
    result the SDK builds from what was thrown; the text of the zod issues
    that the SDK appends to the validation message is left out. *)
Definition CallToolRequest (params : call_params) : Async value :=
  fun p =>
    match registry p !! call_name params with
    | None =>
        if Js.inherited (call_name params)
        then (p, Throw (McpError InvalidParams
                          ("Tool " +:+ call_name params +:+ " disabled")))
        else (p, Throw (McpError InvalidParams
                          ("Tool " +:+ call_name params +:+ " not found")))
    | Some tool =>
        match Zod.parse (inputSchema tool) (call_arguments params) with
        | None =>
            (p, Throw (McpError InvalidParams
                         ("Input validation error: Invalid arguments for tool "
                          +:+ call_name params)))
        | Some args => proxy_call (callback tool) args p
        end
    end.

(** The catalog a caller of the gateway can see. *)
Definition served (p : process) : option (gmap string registered_tool) :=
  if listening p then Some (registry p) else None.

(** The entry [entry] under [name] is the proxy of a tool of that name
    listed by a configured upstream: its owner is the client of that
    upstream and its input schema is the translation of the schema the
    upstream listed. *)
Definition proxy_of_advertised (children : list child_config)
           (name : string) (entry : registered_tool) : Prop :=
  exists cfg ts s,
    cfg ∈ children
    /\ on_listTools (network (url cfg)) = Ok ts
    /\ proxied (callback entry) ∈ ts
    /\ owner (callback entry) = client_of cfg
    /\ tool_name (proxied (callback entry)) = name
    /\ jsonSchemaToZodSchema (tool_inputSchema (proxied (callback entry))) = Ok s
    /\ inputSchema entry = getZodSchemaObject s.

End Gateway.

(** ** What a start-up discovers *)

(** The tools an upstream lists, none when the listing fails. *)
Definition listed (network : string -> upstream) (cfg : child_config) : list tool :=
  match on_listTools (network (url cfg)) with
  | Ok tools => tools
  | Throw _ => []
  end.

(** The names of the tools of all configured upstreams, in the order of
    discovery. *)
Definition advertised_names (network : string -> upstream)
           (children : list child_config) : list string :=
  flat_map (fun cfg => map tool_name (listed network cfg)) children.

(** The upstream accepts the connection, lists its tools, and the schema
    of each of them translates. *)
Definition answers (network : string -> upstream) (cfg : child_config) : Prop :=
  on_connect (network (url cfg)) = Ok tt
  /\ exists tools,
      on_listTools (network (url cfg)) = Ok tools
      /\ forall t, t ∈ tools -> exists s, jsonSchemaToZodSchema (tool_inputSchema t) = Ok s.

(** The requests of a start-up that goes through: a connection and a
    listing for each configured upstream, in order. *)
Definition handshake (children : list child_config) : list rpc :=
  flat_map (fun cfg => [Connect (client_of cfg); ListTools (client_of cfg)]) children.

(** The entry [main] registers for the tool [t] of the client [c], whose
    schema translates to [s]. *)
Definition proxy_entry (c : client) (t : tool) (s : input_schema) : registered_tool :=
  {| description := Js.nullish_or (tool_description t) (VStr "");
     inputSchema := getZodSchemaObject s;
     callback := {| owner := c; proxied := t |} |}.

(** ** Schemas that agree on what the translator reads *)

(** The two schemas have the same [type], [enum], [items] and
    [properties]. *)
Definition same_shape (ps ps' : value) : Prop :=
  Js.prop ps "type" = Js.prop ps' "type"
  /\ Js.prop ps "enum" = Js.prop ps' "enum"
  /\ Js.prop ps "items" = Js.prop ps' "items"
  /\ Js.prop ps "properties" = Js.prop ps' "properties".


(** ** Schemas and upstreams used as examples *)

(** An object node with a required [a] and an optional [b], and the same
    node nested under the property [o] of a top-level schema. *)
Definition node_a_b : value :=
  VObj [("type", VStr "object");
        ("properties", VObj [("a", VObj [("type", VStr "string")]);
                             ("b", VObj [("type", VStr "string")])]);
        ("required", VArr [VStr "a"])].

Definition nested_a_b : value :=
  VObj [("type", VStr "object");
        ("properties", VObj [("o", node_a_b)]);
        ("required", VArr [VStr "o"])].

Definition child_a : child_config :=
  {| id := "mcp-child-a-http"; url := "http://127.0.0.1:3031/mcp" |}.

Definition child_b : child_config :=
  {| id := "mcp-child-b-http"; url := "http://127.0.0.1:3032/mcp" |}.

(** The tool of [mcp-child-a.js], registered without an input schema. *)
Definition joke : tool :=
  {| tool_name := "joke"; tool_description := VStr "Get a Random Joke";
     tool_inputSchema := VObj [("type", VStr "object"); ("properties", VObj [])] |}.

(** A tool that requires a string [name]. *)
Definition name_age : tool :=
  {| tool_name := "name-age"; tool_description := VUndefined;
     tool_inputSchema :=
       VObj [("type", VStr "object");
             ("properties", VObj [("name", VObj [("type", VStr "string")])]);
             ("required", VArr [VStr "name"])] |}.

Definition ping : tool :=
  {| tool_name := "ping"; tool_description := VUndefined;
     tool_inputSchema := VObj [("type", VStr "object")] |}.

(** An upstream that lists [tools] and answers a call with a text that
    names the tool and repeats the arguments it was given. *)
Definition serving (tools : list tool) : upstream :=
  {| on_connect := Ok tt;
     on_listTools := Ok tools;
     on_callTool := fun params =>
       Ok (VObj [("content",
                  VArr [VObj [("type", VStr "text");
                              ("text", VStr (call_name params));
                              ("echo", call_arguments params)]])]) |}.

Definition unreachable : upstream :=
  {| on_connect := Throw (Rejected "fetch failed");
     on_listTools := Throw (Rejected "Not connected");
     on_callTool := fun _ => Throw (Rejected "Not connected") |}.

Definition both_ping : string -> upstream := fun _ => serving [ping].

Definition joke_and_name_age : string -> upstream := fun address =>
  if String.eqb address (url child_a) then serving [joke] else serving [name_age].

Definition b_unreachable : string -> upstream := fun address =>
  if String.eqb address (url child_a) then serving [joke] else unreachable.

Definition name_age_entry : registered_tool :=
  {| description := VStr "";
     inputSchema := ZodObject [("name", ZodString)];
     callback := {| owner := client_of child_b; proxied := name_age |} |}.

(** A process whose table holds a tool with an input schema that accepts
    absent arguments. *)
Definition lenient_entry : registered_tool :=
  {| description := VStr "";
     inputSchema := ZodOptional (ZodRecord ZodAny);
     callback := {| owner := client_of child_a; proxied := joke |} |}.

Definition lenient_process : process :=
  {| server := {| server_name := "mcp-parent-http"; server_version := "1.0.0";
                  _registeredTools := {[ "joke" := lenient_entry ]} |};
     listening := true; wire := [] |}.

(** ** The loops of the object and record validators, by name *)

(** The loop of [parse] on [z.object(shape)]: each key of the shape is
    parsed from the input and merged into the result. *)
Definition object_pairs (fields : list (string * value))
  : list (string * value) -> list (string * zod) -> option (list (string * value)) :=
  fix pairs acc sh :=
    match sh with
    | [] => Some acc
    | (key, keyValidator) :: sh =>
        v ← Zod.parse keyValidator (default VUndefined (Js.assoc_get key fields));
        pairs (Zod.merge_pair key v (Js.has_key key fields) acc) sh
    end.

(** The loop of [parse] on [z.record(valueType)]. *)
Definition record_pairs (valueType : zod)
  : list (string * value) -> list (string * value) -> option (list (string * value)) :=
  fix pairs acc fs :=
    match fs with
    | [] => Some acc
    | (key, x) :: fs =>
        v ← Zod.parse valueType x;
        pairs (Zod.merge_pair key v true acc) fs
    end.

(** An object as [JSON.parse] builds it: no name twice, and no own
    property ["__proto__"]. *)
Definition plain_object (fields : list (string * value)) : Prop :=
  NoDup (fields.*1) /\ "__proto__" ∉ fields.*1.

(** The validator of a property at the top level: optional unless its
    name is in [required]. *)
Definition top_level_validator (names : list value) (key : string) (ps : value) : zod :=
  if Js.includes_str names key
  then jsonSchemaPropertyToZod ps
  else ZodOptional (jsonSchemaPropertyToZod ps).

(** [.optional()] occurs nowhere in the validator. *)
Fixpoint no_optional (schema : zod) : bool :=
  match schema with
  | ZodArray element => no_optional element
  | ZodObject shape => forallb (fun kz => no_optional (snd kz)) shape
  | ZodRecord valueType => no_optional valueType
  | ZodNullable inner => no_optional inner
  | ZodOptional _ => false
  | _ => true
  end.

(** The shape the [object] case builds from the entries of
    [properties], given the translation [self] of each of them. *)
Definition declared_shape (self : value -> zod) (es : list (string * value))
           (shape : list (string * zod)) : list (string * zod) :=
  fold_left (fun sh kv => shape_assign (fst kv) (self (snd kv)) sh) es shape.

(** The names the translator reads from a schema. *)
Definition read_names : list string :=
  ["type"; "enum"; "items"; "properties"; "nullable"].

(** [f] is below [g] when [g] returns whatever [f] returns. *)
Definition below (f g : value -> option zod) : Prop :=
  forall v z, f v = Some z -> g v = Some z.

(** * Properties *)

(** ** Termination of the translator *)

Section Measure.

Lemma size_pos v : 1 <= size v.
Proof. destruct v; simpl; lia. Qed.

Lemma size_elem x (l : list value) :
  x ∈ l -> size x <= list_sum (map size l).
Proof.
  induction 1 as [x l | x y l _ IH]; simpl; lia.
Qed.

Lemma size_field k x (fields : list (string * value)) :
  (k, x) ∈ fields -> size x <= list_sum (map (fun kv => size (snd kv)) fields).
Proof.
  intros H. remember (k, x) as p eqn:E.
  induction H as [p l | p q l _ IH]; subst; simpl; [lia | specialize (IH eq_refl); lia].
Qed.

Lemma assoc_get_elem {A} k (a : A) l : Js.assoc_get k l = Some a -> exists k', (k', a) ∈ l.
Proof.
  induction l as [| [k' a'] l IH]; simpl; [done |].
  destruct (String.eqb k' k).
  - intros [= ->]. exists k'. left.
  - intros H. destruct (IH H) as [k'' ?]. exists k''. by right.
Qed.

Lemma indexed_elem {A} k (a : A) i l : (k, a) ∈ Js.indexed i l -> a ∈ l.
Proof.
  revert i. induction l as [| b l IH]; simpl; intros i H.
  - by apply elem_of_nil in H.
  - apply elem_of_cons in H as [[= _ ->] | H]; [left | right; eauto].
Qed.

Lemma chars_size x s : x ∈ Js.chars s -> size x = 1.
Proof.
  induction s as [| c s IH]; simpl; intros H.
  - by apply elem_of_nil in H.
  - apply elem_of_cons in H as [-> | H]; [done | auto].
Qed.

(** A property read from an object or an array is smaller than it. *)
Lemma size_prop v k :
  Js.truthy v = true -> Js.typeof_object v = true -> size (Js.prop v k) < size v.
Proof.
  destruct v as [| | | | | elems | fields]; simpl; try done; intros _ _; [lia |].
  destruct (Js.assoc_get k fields) as [x |] eqn:E; simpl; [| lia].
  apply assoc_get_elem in E as [k' E]. apply size_field in E. lia.
Qed.

(** No entry of a value is larger than the value. *)
Lemma size_entries v k x : (k, x) ∈ Js.entries v -> size x <= size v.
Proof.
  destruct v as [| | | | s | elems | fields]; simpl; intros H;
    try (by apply elem_of_nil in H).
  - apply indexed_elem, chars_size in H. lia.
  - apply indexed_elem, size_elem in H. lia.
  - apply size_field in H. lia.
Qed.

Lemma size_at_index l i : size (Js.at_index l i) < size (VArr l).
Proof.
  unfold Js.at_index. destruct (nth_in_or_default i l VUndefined) as [H | ->].
  - apply list_elem_of_In, size_elem in H. simpl. lia.
  - simpl. lia.
Qed.

Lemma size_at_index_filter f l i :
  size (Js.at_index (List.filter f l) i) < size (VArr l).
Proof.
  unfold Js.at_index.
  destruct (nth_in_or_default i (List.filter f l) VUndefined) as [H | ->].
  - apply filter_In in H as [H _]. apply list_elem_of_In, size_elem in H. simpl. lia.
  - simpl. lia.
Qed.

Lemma size_assoc_set k x old (fields : list (string * value)) :
  Js.assoc_get k fields = Some old ->
  list_sum (map (fun kv => size (snd kv)) (Js.assoc_set k x fields)) + size old
  = list_sum (map (fun kv => size (snd kv)) fields) + size x.
Proof.
  induction fields as [| [k' a] l IH]; simpl; [done |].
  destruct (String.eqb k' k); simpl.
  - intros [= ->]. lia.
  - intros H. specialize (IH H). lia.
Qed.

(** Replacing the array of kinds by one of its members makes the schema
    smaller. *)
Lemma size_spread_type ps types x :
  Js.prop ps "type" = VArr types ->
  size x < size (VArr types) ->
  size (Js.spread_with ps "type" x) < size ps.
Proof.
  destruct ps as [| | | | | | fields]; simpl; try done.
  destruct (Js.assoc_get "type" fields) as [old |] eqn:E; simpl; [| done].
  intros -> Hx. pose proof (size_assoc_set "type" x _ _ E) as H. simpl in H. lia.
Qed.

End Measure.

Section Fuel.

Lemma translate_properties_mono f g es shape r :
  below f g ->
  translate_properties f shape es = Some r -> translate_properties g shape es = Some r.
Proof.
  intros Hfg. revert shape. induction es as [| [key v] es IH]; simpl; intros shape; [done |].
  destruct (f v) as [z |] eqn:E; simpl; [| done].
  rewrite (Hfg _ _ E). simpl. apply IH.
Qed.

Lemma switch_type_mono f g ps type z :
  below f g -> switch_type f ps type = Some z -> switch_type g ps type = Some z.
Proof.
  intros Hfg. unfold switch_type. destruct (kind_of type); try done.
  - destruct (Js.truthy (Js.prop ps "items")); [| done].
    destruct (f (Js.prop ps "items")) as [z' |] eqn:E; simpl; [| done].
    by rewrite (Hfg _ _ E).
  - destruct (Js.truthy (Js.prop ps "properties")); [| done].
    destruct (translate_properties f [] _) as [sh |] eqn:E; simpl; [| done].
    by rewrite (translate_properties_mono _ _ _ _ _ Hfg E).
Qed.

Lemma body_mono f g ps z :
  below f g ->
  jsonSchemaPropertyToZod_body f ps = Some z -> jsonSchemaPropertyToZod_body g ps = Some z.
Proof.
  intros Hfg. unfold jsonSchemaPropertyToZod_body.
  destruct (negb (Js.truthy ps) || negb (Js.typeof_object ps)); [done |].
  generalize (Js.prop ps "type"). intros type.
  assert (Hsw : switch_type f ps type ≫= (fun zodSchema => Some (handle_nullable ps zodSchema))
                = Some z ->
                switch_type g ps type ≫= (fun zodSchema => Some (handle_nullable ps zodSchema))
                = Some z).
  { destruct (switch_type f ps type) as [z' |] eqn:E; simpl; [| done].
    by rewrite (switch_type_mono _ _ _ _ _ Hfg E). }
  destruct type as [| | | | | types |]; try exact Hsw.
  destruct (Js.includes_str types "null" && _).
  - destruct (f _) as [z' |] eqn:E; simpl; [| done]. by rewrite (Hfg _ _ E).
  - apply Hfg.
Qed.

Lemma fuel_below n : below (jsonSchemaPropertyToZod_fuel n) (jsonSchemaPropertyToZod_fuel (S n)).
Proof.
  induction n as [| n IH]; intros v z; [done |].
  change (jsonSchemaPropertyToZod_fuel (S n)) with
    (jsonSchemaPropertyToZod_body (jsonSchemaPropertyToZod_fuel n)).
  change (jsonSchemaPropertyToZod_fuel (S (S n))) with
    (jsonSchemaPropertyToZod_body (jsonSchemaPropertyToZod_fuel (S n))).
  by apply body_mono.
Qed.

(** More fuel does not change a result. *)
Lemma fuel_mono n k ps z :
  jsonSchemaPropertyToZod_fuel n ps = Some z ->
  jsonSchemaPropertyToZod_fuel (n + k) ps = Some z.
Proof.
  intros H. induction k as [| k IH].
  - by rewrite Nat.add_0_r.
  - rewrite Nat.add_succ_r. by apply fuel_below.
Qed.

Lemma translate_properties_total f es shape bound :
  (forall v, size v <= bound -> is_Some (f v)) ->
  (forall k v, (k, v) ∈ es -> size v <= bound) ->
  is_Some (translate_properties f shape es).
Proof.
  intros Hf. revert shape. induction es as [| [key v] es IH]; simpl; intros shape Hes; [by eexists |].
  destruct (Hf v) as [z ->]; [apply (Hes key); left |]. simpl.
  apply IH. intros k' v' H. apply (Hes k'). by right.
Qed.

(** Fuel equal to the size of the schema is enough. *)
Lemma fuel_total n ps : size ps <= n -> is_Some (jsonSchemaPropertyToZod_fuel n ps).
Proof.
  revert ps. induction n as [| n IH]; intros ps Hn.
  { pose proof (size_pos ps). lia. }
  change (is_Some (jsonSchemaPropertyToZod_body (jsonSchemaPropertyToZod_fuel n) ps)).
  unfold jsonSchemaPropertyToZod_body.
  destruct (Js.truthy ps) eqn:Ht; simpl; [| by eexists].
  destruct (Js.typeof_object ps) eqn:Ho; simpl; [| by eexists].
  assert (Hsw : forall type, is_Some
            (switch_type (jsonSchemaPropertyToZod_fuel n) ps type ≫=
               (fun zodSchema => Some (handle_nullable ps zodSchema)))).
  { intros type. unfold switch_type.
    destruct (kind_of type); try (by eexists).
    - destruct (Js.prop ps "enum"); by eexists.
    - destruct (Js.truthy (Js.prop ps "items")); [| by eexists].
      destruct (IH (Js.prop ps "items")) as [z ->]; [| by eexists].
      pose proof (size_prop ps "items" Ht Ho). lia.
    - destruct (Js.truthy (Js.prop ps "properties")); [| by eexists].
      destruct (translate_properties_total (jsonSchemaPropertyToZod_fuel n)
                  (Js.entries (Js.prop ps "properties")) [] n) as [sh ->];
        [done | | by eexists].
      intros k v H. apply size_entries in H.
      pose proof (size_prop ps "properties" Ht Ho). lia. }
  destruct (Js.prop ps "type") as [| | | | | types |] eqn:Et; try apply Hsw.
  destruct (Js.includes_str types "null" && _).
  - destruct (IH (Js.spread_with ps "type"
                    (Js.at_index (List.filter not_null_type types) 0))) as [z ->];
      [| by eexists].
    pose proof (size_spread_type ps types _ Et (size_at_index_filter not_null_type types 0)).
    lia.
  - apply IH.
    pose proof (size_spread_type ps types _ Et (size_at_index types 0)). lia.
Qed.

Lemma fuel_enough n ps :
  size ps <= n ->
  jsonSchemaPropertyToZod_fuel n ps = Some (jsonSchemaPropertyToZod ps).
Proof.
  intros Hn. unfold jsonSchemaPropertyToZod.
  destruct (fuel_total (size ps) ps) as [z Hz]; [done |].
  rewrite Hz. simpl. replace n with (size ps + (n - size ps)) by lia.
  by apply fuel_mono.
Qed.

(** The translator satisfies the equation of its body. *)
Lemma jsonSchemaPropertyToZod_unfold ps :
  jsonSchemaPropertyToZod_body (fun v => Some (jsonSchemaPropertyToZod v)) ps
  = Some (jsonSchemaPropertyToZod ps).
Proof.
  apply (body_mono (jsonSchemaPropertyToZod_fuel (size ps))).
  - intros v z H.
    pose proof (fuel_mono _ (size v) _ _ H) as H1.
    rewrite fuel_enough in H1 by lia. done.
  - change (jsonSchemaPropertyToZod_fuel (S (size ps)) ps = Some (jsonSchemaPropertyToZod ps)).
    apply fuel_enough. lia.
Qed.

End Fuel.

(** ** The equations of the translator, case by case *)

Section Equations.

Lemma prop_object ps k :
  Js.prop ps k <> VUndefined -> exists fields, ps = VObj fields.
Proof. destruct ps; simpl; try done. eauto. Qed.

Lemma prop_object_like ps k :
  Js.prop ps k <> VUndefined ->
  negb (Js.truthy ps) || negb (Js.typeof_object ps) = false.
Proof. intros [fields ->]%prop_object. done. Qed.

Lemma translate_not_object ps :
  negb (Js.truthy ps) || negb (Js.typeof_object ps) = true ->
  jsonSchemaPropertyToZod ps = ZodAny.
Proof.
  intros H. pose proof (jsonSchemaPropertyToZod_unfold ps) as E.
  unfold jsonSchemaPropertyToZod_body in E. rewrite H in E. congruence.
Qed.

(** A schema whose [type] is an array of kinds. *)
Lemma translate_kinds ps types :
  Js.prop ps "type" = VArr types ->
  jsonSchemaPropertyToZod ps =
  if Js.includes_str types "null"
     && Nat.eqb (length (List.filter not_null_type types)) 1
  then ZodNullable
         (jsonSchemaPropertyToZod
            (Js.spread_with ps "type" (Js.at_index (List.filter not_null_type types) 0)))
  else jsonSchemaPropertyToZod (Js.spread_with ps "type" (Js.at_index types 0)).
Proof.
  intros Et. pose proof (jsonSchemaPropertyToZod_unfold ps) as E.
  unfold jsonSchemaPropertyToZod_body in E.
  rewrite (prop_object_like ps "type") in E by (rewrite Et; done).
  rewrite Et in E. destruct (_ && _); simpl in E; congruence.
Qed.

(** A schema that is an object or an array and whose [type] is not an
    array of kinds. *)
Lemma translate_switch ps :
  negb (Js.truthy ps) || negb (Js.typeof_object ps) = false ->
  Js.isArray (Js.prop ps "type") = false ->
  switch_type (fun v => Some (jsonSchemaPropertyToZod v)) ps (Js.prop ps "type")
  ≫= (fun zodSchema => Some (handle_nullable ps zodSchema))
  = Some (jsonSchemaPropertyToZod ps).
Proof.
  intros Ho Ha. pose proof (jsonSchemaPropertyToZod_unfold ps) as E.
  unfold jsonSchemaPropertyToZod_body in E. rewrite Ho in E.
  destruct (Js.prop ps "type"); try done.
Qed.

Lemma translate_kind_string ps :
  Js.prop ps "type" = VStr "string" ->
  jsonSchemaPropertyToZod ps =
  handle_nullable ps
    match Js.prop ps "enum" with VArr values => ZodEnum values | _ => ZodString end.
Proof.
  intros Et. pose proof (translate_switch ps) as E.
  rewrite Et in E. unfold switch_type in E. simpl in E.
  specialize (E (prop_object_like ps "type" ltac:(by rewrite Et)) eq_refl).
  destruct (Js.prop ps "enum"); simpl in E; congruence.
Qed.

End Equations.

(** ** What the validators accept *)

Section Acceptance.

Lemma accepts_true schema data :
  Zod.accepts schema data = true <-> is_Some (Zod.parse schema data).
Proof. unfold Zod.accepts. by rewrite bool_decide_eq_true. Qed.

Lemma accepts_false schema data :
  Zod.accepts schema data = false <-> Zod.parse schema data = None.
Proof.
  unfold Zod.accepts. rewrite bool_decide_eq_false, eq_None_not_Some. done.
Qed.

Lemma accepts_any data : Zod.accepts ZodAny data = true.
Proof. apply accepts_true. by eexists. Qed.

Lemma accepts_nullable_null inner : Zod.accepts (ZodNullable inner) VNull = true.
Proof. apply accepts_true. by eexists. Qed.

Lemma accepts_nullable inner data :
  Zod.accepts inner data = true -> Zod.accepts (ZodNullable inner) data = true.
Proof.
  rewrite !accepts_true. destruct data; simpl; by eauto.
Qed.

Lemma accepts_nullable_inv inner data :
  Zod.accepts (ZodNullable inner) data = true ->
  data = VNull \/ Zod.accepts inner data = true.
Proof.
  rewrite !accepts_true. destruct data; simpl; auto.
Qed.

End Acceptance.

(** ** The translation and the call stack *)

Section Stack.

Lemma fuel_le n m ps z :
  n <= m ->
  jsonSchemaPropertyToZod_fuel n ps = Some z ->
  jsonSchemaPropertyToZod_fuel m ps = Some z.
Proof. intros Hle H. replace m with (n + (m - n)) by lia. by apply fuel_mono. Qed.

Lemma least_stack_spec n from ps :
  (forall k, k < from -> jsonSchemaPropertyToZod_fuel k ps = None) ->
  is_Some (jsonSchemaPropertyToZod_fuel (from + n) ps) ->
  from <= least_stack n from ps <= from + n
  /\ is_Some (jsonSchemaPropertyToZod_fuel (least_stack n from ps) ps)
  /\ forall k, k < least_stack n from ps -> jsonSchemaPropertyToZod_fuel k ps = None.
Proof.
  revert from. induction n as [| n IH]; intros from Hlow Hsome; simpl.
  - rewrite Nat.add_0_r in Hsome. split; [lia | done].
  - destruct (jsonSchemaPropertyToZod_fuel from ps) as [z |] eqn:E.
    + split; [lia |]. split; [by rewrite E | done].
    + destruct (IH (S from)) as (Hr & Hs & Hl).
      * intros k Hk. destruct (decide (k = from)) as [-> | ?]; [done | apply Hlow; lia].
      * by replace (S from + n) with (from + S n) by lia.
      * split; [lia | done].
Qed.

(** The depth of a schema is the least stack on which it is translated;
    it is at most the size of the schema. *)
Lemma depth_spec ps :
  1 <= depth ps <= size ps
  /\ jsonSchemaPropertyToZod_fuel (depth ps) ps = Some (jsonSchemaPropertyToZod ps)
  /\ forall k, k < depth ps -> jsonSchemaPropertyToZod_fuel k ps = None.
Proof.
  destruct (least_stack_spec (size ps) 0 ps) as (Hr & [z Hz] & Hl).
  - intros k Hk. lia.
  - apply fuel_total. simpl. lia.
  - fold (depth ps) in Hr, Hz, Hl. simpl in Hr.
    assert (1 <= depth ps) by (destruct (depth ps); [done | lia]).
    split; [lia |]. split; [| done].
    pose proof (fuel_le _ (size ps) _ _ (proj2 Hr) Hz) as H1.
    rewrite fuel_enough in H1 by lia. congruence.
Qed.

Lemma on_stack stack ps :
  jsonSchemaPropertyToZod_on stack ps
  = if (depth ps <=? stack)%nat then Ok (jsonSchemaPropertyToZod ps)
    else Throw stack_overflow.
Proof.
  destruct (depth_spec ps) as (_ & Hd & Hl). unfold jsonSchemaPropertyToZod_on.
  destruct (Nat.leb_spec (depth ps) stack) as [H | H].
  - by rewrite (fuel_le _ _ _ _ H Hd).
  - by rewrite (Hl _ H).
Qed.

Lemma depth_not_object ps :
  negb (Js.truthy ps) || negb (Js.typeof_object ps) = true -> depth ps = 1.
Proof.
  intros H. destruct (depth_spec ps) as (Hr & _ & Hl).
  destruct (decide (depth ps = 1)) as [| Hne]; [done |].
  specialize (Hl 1 ltac:(lia)). simpl in Hl.
  unfold jsonSchemaPropertyToZod_body in Hl. by rewrite H in Hl.
Qed.

(** On a stack that holds every property the wrapper is the wrapper. *)
Lemma translate_required_on_fits stack required es shape :
  (forall key sub, (key, sub) ∈ es -> depth sub <= stack) ->
  translate_required_on stack required shape es = translate_required required shape es.
Proof.
  revert shape. induction es as [| [key ps] es IH]; intros shape H; simpl; [done |].
  rewrite on_stack. destruct (Nat.leb_spec (depth ps) stack) as [Hle | Hgt].
  - simpl. destruct (required_includes required key); simpl; [| done].
    apply IH. intros key' sub Hin. apply (H key'). by right.
  - specialize (H key ps ltac:(left)). lia.
Qed.

Lemma jsonSchemaToZodSchema_on_fits stack jsonSchema :
  (forall key sub,
      (key, sub) ∈ Js.entries (Js.or_else (Js.prop jsonSchema "properties") (VObj [])) ->
      depth sub <= stack) ->
  jsonSchemaToZodSchema_on stack jsonSchema = jsonSchemaToZodSchema jsonSchema.
Proof.
  intros H. unfold jsonSchemaToZodSchema_on, jsonSchemaToZodSchema.
  destruct (_ || _); [done |]. by rewrite translate_required_on_fits.
Qed.

Lemma nested_arrays_truthy n : Js.truthy (nested_arrays n) = true.
Proof. by destruct n. Qed.

Lemma nested_arrays_step k n :
  jsonSchemaPropertyToZod_fuel (S k) (nested_arrays (S n))
  = ZodArray <$> jsonSchemaPropertyToZod_fuel k (nested_arrays n).
Proof.
  change (jsonSchemaPropertyToZod_fuel (S k) (nested_arrays (S n)))
    with (jsonSchemaPropertyToZod_body (jsonSchemaPropertyToZod_fuel k)
            (VObj [("type", VStr "array"); ("items", nested_arrays n)])).
  unfold jsonSchemaPropertyToZod_body, switch_type, handle_nullable. simpl.
  rewrite nested_arrays_truthy.
  by destruct (jsonSchemaPropertyToZod_fuel k (nested_arrays n)).
Qed.

(** A schema of [n] arrays one inside the other needs [n + 1] frames. *)
Lemma nested_arrays_overflow n :
  jsonSchemaPropertyToZod_fuel n (nested_arrays n) = None.
Proof.
  induction n as [| n IH]; [done |]. by rewrite nested_arrays_step, IH.
Qed.

End Stack.

(** ** Totality of the translation *)

(** The loop of the wrapper returns whenever [required] is absent, an
    array or a string. *)
Lemma translate_required_total required es shape :
  match required with VArr _ | VStr _ => True | _ => False end ->
  exists shape', translate_required required shape es = Ok shape'.
Proof.
  intros Hr. revert shape. induction es as [| [key ps] es IH]; intros shape; simpl.
  - by eexists.
  - destruct required; try done; simpl; apply IH.
Qed.

Lemma jsonSchemaToZodSchema_total jsonSchema :
  match Js.or_else (Js.prop jsonSchema "required") (VArr []) with
  | VArr _ | VStr _ => True
  | _ => False
  end ->
  exists s, jsonSchemaToZodSchema jsonSchema = Ok s.
Proof.
  intros Hr. unfold jsonSchemaToZodSchema. destruct (_ || _); [by eexists |].
  destruct (translate_required_total _
              (Js.entries (Js.or_else (Js.prop jsonSchema "properties") (VObj []))) [] Hr)
    as [shape ->].
  simpl. destruct (Nat.eqb (length shape) 0); by eexists.
Qed.

(** C1, as the code has it.  The translation returns a validator exactly
    when the call stack holds the nesting of the schema.  Every schema
    has a finite depth, at most its size; on a stack of at least that
    many frames [jsonSchemaPropertyToZod] returns its validator, the same
    on every such stack, and on a smaller stack it throws the
    [RangeError] of the engine and nothing else.  A schema that is
    absent, [null] or not an object is translated on one frame to
    [z.any()], which accepts every value unchanged.  The wrapper
    [jsonSchemaToZodSchema] returns on a stack that holds each of the
    properties when [required] is absent, an array or a string. *)
Theorem translation_total_within_stack :
  (forall stack ps,
      1 <= depth ps <= size ps
      /\ jsonSchemaPropertyToZod_on stack ps
         = if (depth ps <=? stack)%nat
           then Ok (jsonSchemaPropertyToZod ps)
           else Throw stack_overflow)
  /\ (forall stack ps,
         negb (Js.truthy ps) || negb (Js.typeof_object ps) = true ->
         jsonSchemaPropertyToZod_on (S stack) ps = Ok ZodAny)
  /\ (forall data, Zod.parse ZodAny data = Some data)
  /\ (forall stack jsonSchema,
         (forall key sub,
             (key, sub) ∈ Js.entries (Js.or_else (Js.prop jsonSchema "properties") (VObj [])) ->
             depth sub <= stack) ->
         match Js.or_else (Js.prop jsonSchema "required") (VArr []) with
         | VArr _ | VStr _ => True
         | _ => False
         end ->
         exists s, jsonSchemaToZodSchema_on stack jsonSchema = Ok s
                   /\ jsonSchemaToZodSchema jsonSchema = Ok s).
Proof.
  split; [| split; [| split]].
  - intros stack ps. split; [apply depth_spec | apply on_stack].
  - intros stack ps H. rewrite on_stack, (depth_not_object ps H). simpl.
    by rewrite (translate_not_object ps H).
  - done.
  - intros stack jsonSchema Hfit Hr.
    destruct (jsonSchemaToZodSchema_total jsonSchema Hr) as [s Hs].
    exists s. by rewrite jsonSchemaToZodSchema_on_fits.
Qed.

Lemma translation_total_within_stack_witness :
  jsonSchemaPropertyToZod_on 4 (nested_arrays 3)
  = Ok (ZodArray (ZodArray (ZodArray ZodString)))
  /\ jsonSchemaPropertyToZod_on 3 (nested_arrays 3) = Throw stack_overflow
  /\ jsonSchemaPropertyToZod_on 1 (VStr "object") = Ok ZodAny
  /\ exists s, jsonSchemaToZodSchema_on 1 node_a_b = Ok s
               /\ jsonSchemaToZodSchema node_a_b = Ok s.
Proof.
  split; [| split; [| split]].
  - exact (proj2 (proj1 translation_total_within_stack 4 (nested_arrays 3))).
  - exact (proj2 (proj1 translation_total_within_stack 3 (nested_arrays 3))).
  - exact (proj1 (proj2 translation_total_within_stack) 0 (VStr "object") eq_refl).
  - apply (proj2 (proj2 (proj2 translation_total_within_stack)) 1 node_a_b); [| exact I].
    intros key sub H. simpl in H.
    repeat (apply elem_of_cons in H as [[= -> ->] | H]; [vm_compute; lia |]).
    by apply elem_of_nil in H.
Defined.

(** The claim C1 as the specification words it does not hold.  No stack
    holds every schema: [stack] arrays one inside the other are one call
    too deep for a stack of [stack] frames, and the translation throws.
    The wrapper throws as well, whatever the stack, on a schema whose
    [required] is [true], and on a stack of two frames on a property
    that nests two arrays. *)
Lemma translation_total_counterexample :
  (forall stack,
      jsonSchemaPropertyToZod_on stack (nested_arrays stack) = Throw stack_overflow)
  /\ jsonSchemaToZodSchema_on 2
       (VObj [("type", VStr "object");
              ("properties", VObj [("a", VObj [("type", VStr "string")])]);
              ("required", VBool true)])
     = Throw (TypeError "required.includes is not a function")
  /\ jsonSchemaToZodSchema_on 2
       (VObj [("type", VStr "object");
              ("properties", VObj [("a", nested_arrays 2)])])
     = Throw stack_overflow.
Proof.
  split; [| split; reflexivity].
  intros stack. unfold jsonSchemaPropertyToZod_on. by rewrite nested_arrays_overflow.
Qed.

(** ** An array of kinds *)

(** C4. When [type] is an array of kinds that includes ['null'] and whose
    other members are exactly one, the validator is the nullable of the
    validator of that member: it accepts [null] and whatever the member's
    validator accepts.  Otherwise the validator is the one of the first
    member of the array, and the other members are not looked at. *)
Theorem kinds_array_translation ps types :
  Js.prop ps "type" = VArr types ->
  let single := Js.spread_with ps "type" (Js.at_index (List.filter not_null_type types) 0) in
  let first := Js.spread_with ps "type" (Js.at_index types 0) in
  if Js.includes_str types "null" && Nat.eqb (length (List.filter not_null_type types)) 1
  then jsonSchemaPropertyToZod ps = ZodNullable (jsonSchemaPropertyToZod single)
       /\ Zod.accepts (jsonSchemaPropertyToZod ps) VNull = true
       /\ (forall data, Zod.accepts (jsonSchemaPropertyToZod single) data = true ->
                        Zod.accepts (jsonSchemaPropertyToZod ps) data = true)
  else jsonSchemaPropertyToZod ps = jsonSchemaPropertyToZod first.
Proof.
  intros Et single first. rewrite (translate_kinds ps types Et).
  destruct (_ && _); [| done].
  split; [done |]. split; [apply accepts_nullable_null |].
  intros data. apply accepts_nullable.
Qed.

Lemma kinds_array_translation_witness :
  let ps := VObj [("type", VArr [VStr "string"; VStr "null"])] in
  let ps' := VObj [("type", VArr [VStr "string"; VStr "number"; VStr "null"])] in
  (jsonSchemaPropertyToZod ps = ZodNullable (jsonSchemaPropertyToZod (VObj [("type", VStr "string")]))
   /\ Zod.accepts (jsonSchemaPropertyToZod ps) VNull = true
   /\ (forall data,
          Zod.accepts (jsonSchemaPropertyToZod (VObj [("type", VStr "string")])) data = true ->
          Zod.accepts (jsonSchemaPropertyToZod ps) data = true))
  /\ jsonSchemaPropertyToZod ps' = jsonSchemaPropertyToZod (VObj [("type", VStr "string")]).
Proof.
  split.
  - exact (kinds_array_translation
             (VObj [("type", VArr [VStr "string"; VStr "null"])])
             [VStr "string"; VStr "null"] eq_refl).
  - exact (kinds_array_translation
             (VObj [("type", VArr [VStr "string"; VStr "number"; VStr "null"])])
             [VStr "string"; VStr "number"; VStr "null"] eq_refl).
Defined.

(** ** Reading a schema after a spread *)

Section Reads.

Lemma assoc_get_set {A} k k' (a : A) l :
  Js.assoc_get k' (Js.assoc_set k a l)
  = if String.eqb k k' then Some a else Js.assoc_get k' l.
Proof.
  induction l as [| [k0 a0] l IH]; simpl.
  - done.
  - destruct (String.eqb k0 k) eqn:E0; simpl.
    + apply String.eqb_eq in E0 as ->. by destruct (String.eqb k k').
    + destruct (String.eqb k0 k') eqn:E1; [| done].
      apply String.eqb_eq in E1 as ->. by rewrite String.eqb_sym, E0.
Qed.

Lemma prop_spread_with fields k x k' :
  Js.prop (Js.spread_with (VObj fields) k x) k'
  = if String.eqb k k' then x else Js.prop (VObj fields) k'.
Proof.
  simpl. rewrite assoc_get_set. by destruct (String.eqb k k').
Qed.

Lemma prop_assoc_set fields k x k' :
  Js.prop (VObj (Js.assoc_set k x fields)) k'
  = if String.eqb k k' then x else Js.prop (VObj fields) k'.
Proof. apply prop_spread_with. Qed.

Lemma includes_str_elem values s :
  Js.includes_str values s = true <-> VStr s ∈ values.
Proof.
  unfold Js.includes_str. rewrite existsb_exists. split.
  - intros (v & Hv & E). destruct v; simpl in E; try done.
    apply String.eqb_eq in E as ->. by apply list_elem_of_In.
  - intros H. exists (VStr s). split; [by apply list_elem_of_In |].
    simpl. apply String.eqb_refl.
Qed.

Lemma accepts_handle_nullable ps schema data :
  data <> VNull ->
  Zod.accepts (handle_nullable ps schema) data = Zod.accepts schema data.
Proof.
  intros H. unfold handle_nullable. destruct (marked_nullable ps); [| done].
  unfold Zod.accepts. by destruct data.
Qed.

Lemma is_true_iff v : Js.is_true v = true <-> v = VBool true.
Proof. destruct v as [| | [|] | | | |]; simpl; naive_solver. Qed.

Lemma accepts_nullable_iff inner data :
  Zod.accepts (ZodNullable inner) data = true
  <-> data = VNull \/ Zod.accepts inner data = true.
Proof.
  split; [apply accepts_nullable_inv |].
  intros [-> | H]; [apply accepts_nullable_null | by apply accepts_nullable].
Qed.

Lemma accepts_enum_iff values data :
  Zod.accepts (ZodEnum values) data = true
  <-> exists s, data = VStr s /\ VStr s ∈ values.
Proof.
  rewrite accepts_true. destruct data as [| | b | q | s | l | f]; simpl;
    try (split; [by intros [? [=]] | by intros (? & [=] & _)]).
  destruct (Js.includes_str values s) eqn:Ei.
  - apply includes_str_elem in Ei. split; [by eauto | by eexists].
  - split; [by intros [? [=]] |]. intros (s' & [= <-] & Hin).
    apply includes_str_elem in Hin. congruence.
Qed.

End Reads.

(** ** String schemas with an [enum] *)

(** C7, as the code has it.  For a schema of kind [string] whose [enum]
    is an array, the validator accepts exactly the strings that are
    members of the array, and [null] as well when the schema is marked
    [nullable: true]; when [enum] is not an array every string is
    accepted. *)
Theorem string_enum_membership ps :
  Js.prop ps "type" = VStr "string" ->
  (forall values data,
      Js.prop ps "enum" = VArr values ->
      Zod.accepts (jsonSchemaPropertyToZod ps) data = true
      <-> (exists s, data = VStr s /\ VStr s ∈ values)
          \/ (data = VNull /\ Js.prop ps "nullable" = VBool true))
  /\ (Js.isArray (Js.prop ps "enum") = false ->
      forall s, Zod.accepts (jsonSchemaPropertyToZod ps) (VStr s) = true).
Proof.
  intros Et. rewrite (translate_kind_string ps Et). split.
  - intros values data ->. unfold handle_nullable, marked_nullable. rewrite Et. simpl.
    rewrite orb_false_r, <- is_true_iff.
    destruct (Js.is_true (Js.prop ps "nullable")).
    + rewrite accepts_nullable_iff, accepts_enum_iff. tauto.
    + rewrite accepts_enum_iff. intuition discriminate.
  - intros Ha s. rewrite accepts_handle_nullable by done.
    destruct (Js.prop ps "enum"); try done.
Qed.

Lemma string_enum_membership_witness :
  let ps := VObj [("type", VStr "string"); ("enum", VArr [VStr "x"; VStr "y"])] in
  (Zod.accepts (jsonSchemaPropertyToZod ps) (VStr "x") = true
   <-> (exists s, VStr "x" = VStr s /\ VStr s ∈ [VStr "x"; VStr "y"])
       \/ (VStr "x" = VNull /\ Js.prop ps "nullable" = VBool true))
  /\ forall s, Zod.accepts (jsonSchemaPropertyToZod (VObj [("type", VStr "string")])) (VStr s) = true.
Proof.
  split.
  - exact (proj1 (string_enum_membership
                    (VObj [("type", VStr "string"); ("enum", VArr [VStr "x"; VStr "y"])])
                    eq_refl) [VStr "x"; VStr "y"] (VStr "x") eq_refl).
  - exact (proj2 (string_enum_membership (VObj [("type", VStr "string")]) eq_refl) eq_refl).
Defined.

(** The claim C7 as the specification words it does not hold: a string
    schema with [enum: ["x"]] and [nullable: true] accepts [null], which
    is not a member of the array. *)
Lemma string_enum_nullable_counterexample :
  ~ (forall ps values data,
        Js.prop ps "type" = VStr "string" ->
        Js.prop ps "enum" = VArr values ->
        (Zod.accepts (jsonSchemaPropertyToZod ps) data = true <-> data ∈ values)).
Proof.
  intros H.
  specialize (H (VObj [("type", VStr "string"); ("enum", VArr [VStr "x"]);
                       ("nullable", VBool true)])
                [VStr "x"] VNull eq_refl eq_refl).
  apply proj1 in H. specialize (H eq_refl).
  apply list_elem_of_singleton in H. discriminate.
Qed.

(** ** Schemas that agree on what the translator reads *)

Section Agreement.

Lemma same_shape_spread_type fields fields' x :
  same_shape (VObj fields) (VObj fields') ->
  same_shape (Js.spread_with (VObj fields) "type" x) (Js.spread_with (VObj fields') "type" x).
Proof.
  intros (Ht & He & Hi & Hp). unfold same_shape.
  rewrite !prop_spread_with. simpl. auto.
Qed.

Lemma switch_type_same_shape f ps ps' type :
  same_shape ps ps' -> switch_type f ps type = switch_type f ps' type.
Proof.
  intros (_ & He & Hi & Hp). unfold switch_type. by rewrite He, Hi, Hp.
Qed.

Lemma body_object self fields :
  jsonSchemaPropertyToZod_body self (VObj fields)
  = match Js.prop (VObj fields) "type" with
    | VArr types =>
        if Js.includes_str types "null"
           && Nat.eqb (length (List.filter not_null_type types)) 1
        then ZodNullable <$>
               self (Js.spread_with (VObj fields) "type"
                       (Js.at_index (List.filter not_null_type types) 0))
        else self (Js.spread_with (VObj fields) "type" (Js.at_index types 0))
    | _ =>
        switch_type self (VObj fields) (Js.prop (VObj fields) "type")
        ≫= fun zodSchema => Some (handle_nullable (VObj fields) zodSchema)
    end.
Proof. reflexivity. Qed.

(** The translator reads nothing but [type], [enum], [items],
    [properties] and [nullable]. *)
Lemma fuel_same_reads n fields fields' :
  same_shape (VObj fields) (VObj fields') ->
  Js.prop (VObj fields) "nullable" = Js.prop (VObj fields') "nullable" ->
  jsonSchemaPropertyToZod_fuel n (VObj fields) = jsonSchemaPropertyToZod_fuel n (VObj fields').
Proof.
  revert fields fields'. induction n as [| n IH]; intros fields fields' Hs Hn; [done |].
  change (jsonSchemaPropertyToZod_body (jsonSchemaPropertyToZod_fuel n) (VObj fields)
          = jsonSchemaPropertyToZod_body (jsonSchemaPropertyToZod_fuel n) (VObj fields')).
  rewrite !body_object.
  assert (Hh : forall z, handle_nullable (VObj fields) z = handle_nullable (VObj fields') z).
  { intros z. unfold handle_nullable, marked_nullable.
    destruct Hs as (-> & _). by rewrite Hn. }
  pose proof (switch_type_same_shape (jsonSchemaPropertyToZod_fuel n) _ _
                (Js.prop (VObj fields') "type") Hs) as Hsw.
  pose proof Hs as (Ht & _). rewrite Ht.
  destruct (Js.prop (VObj fields') "type") as [| | | | | types |];
    try (rewrite Hsw; clear Hsw; destruct (switch_type _ _ _) as [z0 |];
         [exact (f_equal Some (Hh z0)) | reflexivity]).
  destruct (_ && _).
  - f_equal. apply IH; [by apply same_shape_spread_type |].
    by rewrite !prop_assoc_set.
  - apply IH; [by apply same_shape_spread_type |].
    by rewrite !prop_assoc_set.
Qed.

Lemma translate_same_reads fields fields' :
  same_shape (VObj fields) (VObj fields') ->
  Js.prop (VObj fields) "nullable" = Js.prop (VObj fields') "nullable" ->
  jsonSchemaPropertyToZod (VObj fields) = jsonSchemaPropertyToZod (VObj fields').
Proof.
  intros Hs Hn.
  pose proof (fuel_enough (size (VObj fields) + size (VObj fields')) (VObj fields)) as H1.
  pose proof (fuel_enough (size (VObj fields) + size (VObj fields')) (VObj fields')) as H2.
  rewrite (fuel_same_reads _ _ _ Hs Hn) in H1.
  rewrite H2 in H1 by lia. specialize (H1 ltac:(lia)). congruence.
Qed.

(** A schema marked [nullable: true] accepts [null], whatever its kind. *)
Lemma fuel_nullable_null n fields z :
  Js.is_true (Js.prop (VObj fields) "nullable") = true ->
  jsonSchemaPropertyToZod_fuel n (VObj fields) = Some z ->
  Zod.accepts z VNull = true.
Proof.
  revert fields z. induction n as [| n IH]; intros fields z Hn; [done |].
  change (jsonSchemaPropertyToZod_body (jsonSchemaPropertyToZod_fuel n) (VObj fields) = Some z
          -> Zod.accepts z VNull = true).
  rewrite body_object.
  assert (Hsw : forall type,
             Js.isArray type = false -> Js.prop (VObj fields) "type" = type ->
             switch_type (jsonSchemaPropertyToZod_fuel n) (VObj fields) type
             ≫= (fun zodSchema => Some (handle_nullable (VObj fields) zodSchema)) = Some z ->
             Zod.accepts z VNull = true).
  { intros type Ha Et H.
    destruct (switch_type _ _ _) as [z0 |] eqn:E0; simpl in H; [| done].
    injection H as <-. unfold handle_nullable, marked_nullable. rewrite Et, Hn. simpl.
    destruct (Js.is_str type "null") eqn:En; simpl; [| apply accepts_nullable_null].
    destruct type; simpl in En; try done. apply String.eqb_eq in En as ->.
    unfold switch_type in E0. simpl in E0. by injection E0 as <-. }
  destruct (Js.prop (VObj fields) "type") as [| | | | | types |] eqn:Et;
    try (by apply Hsw).
  destruct (_ && _).
  - destruct (jsonSchemaPropertyToZod_fuel n _) as [z1 |]; simpl; [| done].
    intros [= <-]. apply accepts_nullable_null.
  - apply IH. by rewrite prop_assoc_set.
Qed.

(** Marking a schema [nullable: true] does not take any value away. *)
Lemma fuel_nullable_extends n fields fields' z z' :
  same_shape (VObj fields) (VObj fields') ->
  Js.is_true (Js.prop (VObj fields) "nullable") = true ->
  jsonSchemaPropertyToZod_fuel n (VObj fields) = Some z ->
  jsonSchemaPropertyToZod_fuel n (VObj fields') = Some z' ->
  forall data, Zod.accepts z' data = true -> Zod.accepts z data = true.
Proof.
  revert fields fields' z z'.
  induction n as [| n IH]; intros fields fields' z z' Hs Hn; [done |].
  change (jsonSchemaPropertyToZod_body (jsonSchemaPropertyToZod_fuel n) (VObj fields) = Some z ->
          jsonSchemaPropertyToZod_body (jsonSchemaPropertyToZod_fuel n) (VObj fields') = Some z' ->
          forall data, Zod.accepts z' data = true -> Zod.accepts z data = true).
  rewrite !body_object.
  pose proof (switch_type_same_shape (jsonSchemaPropertyToZod_fuel n) _ _
                (Js.prop (VObj fields') "type") Hs) as Hsw.
  pose proof Hs as (Ht & _).
  assert (Hh : forall z0 data,
             Zod.accepts (handle_nullable (VObj fields') z0) data = true ->
             Zod.accepts (handle_nullable (VObj fields) z0) data = true).
  { intros z0 data. unfold handle_nullable, marked_nullable. rewrite Ht, Hn.
    destruct (negb (Js.is_str (Js.prop (VObj fields') "type") "null")); simpl; [| done].
    destruct (_ || _); [done | apply accepts_nullable]. }
  rewrite Ht.
  destruct (Js.prop (VObj fields') "type") as [| | | | | types |];
    try (rewrite Hsw; clear Hsw; destruct (switch_type _ _ _) as [z0 |]; [| done];
         change (Some (handle_nullable (VObj fields) z0) = Some z ->
                 Some (handle_nullable (VObj fields') z0) = Some z' ->
                 forall data, Zod.accepts z' data = true -> Zod.accepts z data = true);
         intros [= <-] [= <-]; apply Hh).
  destruct (_ && _).
  - destruct (jsonSchemaPropertyToZod_fuel n (Js.spread_with (VObj fields) _ _))
      as [z1 |] eqn:E1; simpl; [| done].
    destruct (jsonSchemaPropertyToZod_fuel n (Js.spread_with (VObj fields') _ _))
      as [z1' |] eqn:E1'; simpl; [| done].
    intros [= <-] [= <-] data. rewrite !accepts_nullable_iff.
    intros [-> | H]; [by left | right].
    eapply (IH _ _ _ _ (same_shape_spread_type _ _ _ Hs)); [| exact E1 | exact E1' | exact H].
    by rewrite prop_assoc_set.
  - apply IH; [by apply same_shape_spread_type |]. by rewrite prop_assoc_set.
Qed.

End Agreement.

(** ** Nullable schemas *)

(** C8. A schema marked [nullable: true] whose kind is not ['null'] gives
    a validator that accepts [null] and every value that the validator of
    the same schema without the mark accepts; when its [type] is a single
    kind the validator is the [.nullable()] of that one.  A schema of kind
    [string] that is not marked rejects [null]. *)
Theorem nullable_accepts_null_as_well ps :
  (Js.prop ps "nullable" = VBool true ->
   Js.is_str (Js.prop ps "type") "null" = false ->
   let unwrapped := jsonSchemaPropertyToZod (Js.spread_with ps "nullable" (VBool false)) in
   Zod.accepts (jsonSchemaPropertyToZod ps) VNull = true
   /\ (forall data, Zod.accepts unwrapped data = true ->
                    Zod.accepts (jsonSchemaPropertyToZod ps) data = true)
   /\ (Js.isArray (Js.prop ps "type") = false ->
       jsonSchemaPropertyToZod ps = ZodNullable unwrapped))
  /\ (Js.prop ps "type" = VStr "string" ->
      Js.prop ps "nullable" <> VBool true ->
      Zod.accepts (jsonSchemaPropertyToZod ps) VNull = false).
Proof.
  split.
  - intros Hn Hk unwrapped.
    destruct (prop_object ps "nullable") as [fields ->]; [by rewrite Hn |].
    set (unmarked := Js.spread_with (VObj fields) "nullable" (VBool false)) in *.
    assert (Hs : same_shape (VObj fields) unmarked).
    { unfold same_shape, unmarked. by rewrite !prop_spread_with. }
    set (fuel := size (VObj fields) + size unmarked).
    pose proof (fuel_enough fuel (VObj fields) ltac:(unfold fuel; lia)) as E.
    pose proof (fuel_enough fuel unmarked ltac:(unfold fuel; lia)) as E'.
    assert (Ht : Js.is_true (Js.prop (VObj fields) "nullable") = true) by by rewrite Hn.
    split; [exact (fuel_nullable_null _ _ _ Ht E) |].
    split; [exact (fuel_nullable_extends _ _ _ _ _ Hs Ht E E') |].
    intros Ha. pose proof (translate_switch (VObj fields) eq_refl Ha) as F.
    pose proof (translate_switch unmarked eq_refl) as F'.
    destruct Hs as (Hty & Hrest). rewrite <- Hty in F'. specialize (F' Ha).
    rewrite <- (switch_type_same_shape _ (VObj fields) unmarked) in F'
      by (split; [exact Hty | exact Hrest]).
    destruct (switch_type _ _ _) as [z0 |]; [| done].
    injection F as F. injection F' as F'. unfold unwrapped. rewrite <- F, <- F'.
    unfold handle_nullable, marked_nullable. rewrite <- Hty, Hn, Hk.
    unfold unmarked. rewrite prop_spread_with. simpl. simpl in Ha.
    by destruct (default VUndefined (Js.assoc_get "type" fields)).
  - intros Et Hn. rewrite (translate_kind_string ps Et).
    unfold handle_nullable, marked_nullable. rewrite Et. simpl.
    replace (Js.is_true (Js.prop ps "nullable")) with false
      by (symmetry; apply not_true_is_false; by rewrite is_true_iff).
    simpl. by destruct (Js.prop ps "enum").
Qed.

Lemma nullable_accepts_null_as_well_witness :
  let ps := VObj [("type", VStr "string"); ("nullable", VBool true)] in
  let plain := VObj [("type", VStr "string"); ("nullable", VBool false)] in
  (Zod.accepts (jsonSchemaPropertyToZod ps) VNull = true
   /\ (forall data, Zod.accepts (jsonSchemaPropertyToZod plain) data = true ->
                    Zod.accepts (jsonSchemaPropertyToZod ps) data = true)
   /\ (Js.isArray (VStr "string") = false ->
       jsonSchemaPropertyToZod ps = ZodNullable (jsonSchemaPropertyToZod plain)))
  /\ Zod.accepts (jsonSchemaPropertyToZod (VObj [("type", VStr "string")])) VNull = false.
Proof.
  split.
  - exact (proj1 (nullable_accepts_null_as_well
                    (VObj [("type", VStr "string"); ("nullable", VBool true)]))
                 eq_refl eq_refl).
  - apply (proj2 (nullable_accepts_null_as_well (VObj [("type", VStr "string")])) eq_refl).
    discriminate.
Defined.

(** ** [enum] on a kind other than [string] *)

Lemma kind_of_string type : kind_of type = KString -> type = VStr "string".
Proof.
  unfold kind_of. destruct (Js.is_str type "string") eqn:E.
  - intros _. destruct type; simpl in E; try done. by apply String.eqb_eq in E as ->.
  - repeat (destruct (Js.is_str type _); [done |]). done.
Qed.

Lemma switch_type_without_enum f fields e k :
  k <> "string" ->
  switch_type f (Js.spread_with (VObj fields) "enum" e) (VStr k)
  = switch_type f (VObj fields) (VStr k).
Proof.
  intros Hk. unfold switch_type.
  destruct (kind_of (VStr k)) eqn:E; rewrite ?prop_spread_with; try done.
  apply kind_of_string in E. congruence.
Qed.

(** C9. On a schema whose [type] is a kind other than ['string'] the
    [enum] is never read: the validator is the same whatever [enum] is, so
    a [number] schema accepts every number, an [integer] schema every
    integer and a [boolean] schema both booleans, listed or not. *)
Theorem enum_ignored_outside_string ps k :
  Js.prop ps "type" = VStr k ->
  k <> "string" ->
  (forall e, jsonSchemaPropertyToZod (Js.spread_with ps "enum" e) = jsonSchemaPropertyToZod ps)
  /\ (k = "number" -> forall q, Zod.accepts (jsonSchemaPropertyToZod ps) (VNum q) = true)
  /\ (k = "integer" ->
      forall q, Zod.accepts (jsonSchemaPropertyToZod ps) (VNum q) = Js.isInteger q)
  /\ (k = "boolean" -> forall b, Zod.accepts (jsonSchemaPropertyToZod ps) (VBool b) = true).
Proof.
  intros Et Hk.
  destruct (prop_object ps "type") as [fields ->]; [by rewrite Et |].
  pose proof (translate_switch (VObj fields) eq_refl ltac:(by rewrite Et)) as F.
  rewrite Et in F. split.
  - intros e.
    pose proof (translate_switch (Js.spread_with (VObj fields) "enum" e) eq_refl) as F'.
    assert (Et' : Js.prop (Js.spread_with (VObj fields) "enum" e) "type" = VStr k)
      by (rewrite prop_spread_with; exact Et).
    rewrite Et' in F'. specialize (F' eq_refl). rewrite switch_type_without_enum in F' by done.
    destruct (switch_type _ _ _) as [z0 |]; [| done].
    injection F as F. injection F' as F'. rewrite <- F, <- F'.
    unfold handle_nullable, marked_nullable. by rewrite !prop_spread_with.
  - repeat split; intros -> x; unfold switch_type in F; simpl in F;
      injection F as <-; rewrite accepts_handle_nullable by done;
      unfold Zod.accepts; simpl; [done | | done].
    by destruct (Js.isInteger x).
Qed.

Lemma enum_ignored_outside_string_witness :
  let ps := VObj [("type", VStr "number"); ("enum", VArr [VNum 1; VNum 2])] in
  (forall e, jsonSchemaPropertyToZod (Js.spread_with ps "enum" e) = jsonSchemaPropertyToZod ps)
  /\ Zod.accepts (jsonSchemaPropertyToZod ps) (VNum 3) = true.
Proof.
  pose proof (enum_ignored_outside_string
                (VObj [("type", VStr "number"); ("enum", VArr [VNum 1; VNum 2])])
                "number" eq_refl ltac:(discriminate)) as (H1 & H2 & _).
  split; [exact H1 | exact (H2 eq_refl 3%Q)].
Defined.

(** ** Object nodes and [required] *)

(** C3, where the code departs from it.  [jsonSchemaPropertyToZod] never
    reads [required]: its validator is the same whatever [required] is, and
    every property of a nested object node is a plain key of [z.object].
    At the top level [jsonSchemaToZodSchema] makes [b] optional and
    [{a: "x"}] validates; with the same node nested under [o], the value
    [{o: {a: "x"}}] is refused because [b] is missing. *)
Theorem nested_required_ignored :
  (forall fields required,
      jsonSchemaPropertyToZod (Js.spread_with (VObj fields) "required" required)
      = jsonSchemaPropertyToZod (VObj fields))
  /\ jsonSchemaToZodSchema node_a_b
     = Ok (RawShape [("a", ZodString); ("b", ZodOptional ZodString)])
  /\ Zod.accepts (ZodObject [("a", ZodString); ("b", ZodOptional ZodString)])
       (VObj [("a", VStr "x")]) = true
  /\ jsonSchemaToZodSchema nested_a_b
     = Ok (RawShape [("o", ZodObject [("a", ZodString); ("b", ZodString)])])
  /\ Zod.accepts (ZodObject [("o", ZodObject [("a", ZodString); ("b", ZodString)])])
       (VObj [("o", VObj [("a", VStr "x")])]) = false
  /\ Zod.accepts (ZodObject [("o", ZodObject [("a", ZodString); ("b", ZodString)])])
       (VObj [("o", VObj [("a", VStr "x"); ("b", VStr "y")])]) = true.
Proof.
  split.
  - intros fields required. apply translate_same_reads.
    + unfold same_shape. by rewrite !prop_assoc_set.
    + by rewrite prop_assoc_set.
  - repeat split; vm_compute; reflexivity.
Qed.

(** ** Loops and invariants of [async] code *)

Section Loops.

Lemma bind_inv {A B} (m : Async A) (f : A -> Async B) p p' r :
  (m ≫= f) p = (p', r) ->
  (exists e, m p = (p', Throw e) /\ r = Throw e)
  \/ (exists q a, m p = (q, Ok a) /\ f a q = (p', r)).
Proof.
  unfold mbind, Async_bind. destruct (m p) as [q [a | e]]; [eauto |].
  intros [= <- <-]. eauto.
Qed.

Lemma bind_ok {A B} (m : Async A) (f : A -> Async B) p p' b :
  (m ≫= f) p = (p', Ok b) ->
  exists q a, m p = (q, Ok a) /\ f a q = (p', Ok b).
Proof. intros [(e & _ & [=]) | H]%bind_inv. exact H. Qed.

Lemma for_of_cons {A} (x : A) l body :
  for_of (x :: l) body = (body x ≫= fun _ => for_of l body).
Proof. reflexivity. Qed.

(** What every iteration keeps, the loop keeps. *)
Lemma for_of_invariant {A} (I : process -> Prop) (l : list A) body :
  (forall x p p' r, x ∈ l -> I p -> body x p = (p', r) -> I p') ->
  forall p p' r, I p -> for_of l body p = (p', r) -> I p'.
Proof.
  induction l as [| x l IH]; intros Hbody p p' r Hp.
  - by intros [= <- _].
  - rewrite for_of_cons.
    intros [(e & H & _) | (q & [] & H & Hl)]%bind_inv.
    + eapply Hbody; [left | exact Hp | exact H].
    + eapply IH; [| | exact Hl].
      * intros y q1 q2 r' Hy. apply Hbody. by right.
      * eapply Hbody; [left | exact Hp | exact H].
Qed.

(** A loop that returns has run each of its iterations to the end, one
    after the other. *)
Lemma for_of_ok_app {A} (l1 l2 : list A) body p p' :
  for_of (l1 ++ l2) body p = (p', Ok tt) ->
  exists q, for_of l1 body p = (q, Ok tt) /\ for_of l2 body q = (p', Ok tt).
Proof.
  revert p. induction l1 as [| x l1 IH]; intros p; simpl app.
  - intros H. by exists p.
  - rewrite !for_of_cons. intros (q & [] & Hx & Hl)%bind_ok.
    destruct (IH _ Hl) as (q' & H1 & H2). exists q'. split; [| done].
    unfold mbind, Async_bind. by rewrite Hx.
Qed.

Lemma for_of_ok_cons {A} (x : A) l body p p' :
  for_of (x :: l) body p = (p', Ok tt) ->
  exists q, body x p = (q, Ok tt) /\ for_of l body q = (p', Ok tt).
Proof.
  rewrite for_of_cons. intros (q & [] & Hx & Hl)%bind_ok. eauto.
Qed.

Lemma result_cases {A} (r : result A) : (exists a, r = Ok a) \/ (exists e, r = Throw e).
Proof. destruct r; eauto. Qed.

End Loops.

(** ** Start-up *)

Section Startup.

Variable network : string -> upstream.

Lemma sent_sent ms ms' p : sent ms' (sent ms p) = sent (ms ++ ms') p.
Proof. unfold sent. simpl. by rewrite app_assoc. Qed.

Lemma inherited_spec name :
  Js.inherited name = true <-> name ∈ Js.prototype_members.
Proof.
  unfold Js.inherited. rewrite existsb_exists. split.
  - intros (x & Hx%list_elem_of_In & ->%String.eqb_eq). done.
  - intros H. exists name. split; [by apply list_elem_of_In | apply String.eqb_refl].
Qed.

Lemma registerTool_inv name d s cb p p' r :
  registerTool name d s cb p = (p', r) ->
  (table_has p name = true /\ p' = p
   /\ r = Throw (Error ("Tool " +:+ name +:+ " is already registered")))
  \/ (registry p !! name = None /\ r = Ok tt
      /\ registry p' = <[name := {| description := d;
                                    inputSchema := getZodSchemaObject s;
                                    callback := cb |}]> (registry p)
      /\ listening p' = listening p /\ wire p' = wire p
      /\ Js.inherited name = false).
Proof.
  unfold registerTool. destruct (table_has p name) eqn:E.
  - intros [= <- <-]. left. eauto.
  - intros [= <- <-]. right. simpl.
    apply orb_false_iff in E as [E ?]. apply bool_decide_eq_false in E.
    rewrite <- eq_None_not_Some in E. eauto 10.
Qed.

Lemma register_inv c t p p' r :
  register c t p = (p', r) ->
  (exists e, jsonSchemaToZodSchema (tool_inputSchema t) = Throw e /\ p' = p /\ r = Throw e)
  \/ (exists s, jsonSchemaToZodSchema (tool_inputSchema t) = Ok s
                /\ registerTool (tool_name t) (Js.nullish_or (tool_description t) (VStr ""))
                     s {| owner := c; proxied := t |} p = (p', r)).
Proof.
  unfold register, settle.
  intros [(e & [= <- E] & ->) | (q & s & [= <- E] & H)]%bind_inv; eauto.
Qed.

Lemma discover_inv cfg p p' r :
  discover network cfg p = (p', r) ->
  let c := client_of cfg in
  (exists e, on_connect (network (url cfg)) = Throw e /\ r = Throw e
             /\ p' = sent [Connect c] p)
  \/ (exists e, on_listTools (network (url cfg)) = Throw e /\ r = Throw e
                /\ p' = sent [Connect c; ListTools c] p)
  \/ (exists ts, on_connect (network (url cfg)) = Ok tt
                 /\ on_listTools (network (url cfg)) = Ok ts
                 /\ for_of ts (register c) (sent [Connect c; ListTools c] p) = (p', r)).
Proof.
  unfold discover, connectChildHttp, Client_connect, Client_listTools, send, settle.
  intros H. unfold mbind, Async_bind, mret, Async_ret in H. simpl in H.
  destruct (on_connect (network (url cfg))) as [[] | e] eqn:Ec.
  - rewrite sent_sent in H. simpl in H.
    destruct (on_listTools (network (url cfg))) as [ts | e] eqn:El.
    + right. right. exists ts. eauto.
    + injection H as <- <-. right. left. eauto.
  - injection H as <- <-. left. eauto.
Qed.

(** An invariant of the process that does not look at the requests sent
    and that every registration keeps is kept by the whole loop of
    [main]. *)
Lemma discovery_invariant (I : process -> Prop) (children : list child_config) :
  (forall ms p, I p -> I (sent ms p)) ->
  (forall cfg ts t p p' r,
      cfg ∈ children ->
      on_listTools (network (url cfg)) = Ok ts -> t ∈ ts ->
      I p -> register (client_of cfg) t p = (p', r) -> I p') ->
  forall p p' r,
    I p -> for_of children (discover network) p = (p', r) -> I p'.
Proof.
  intros Hsent Hreg. apply for_of_invariant.
  intros cfg p p' r Hcfg Hp
    [(e & _ & _ & ->) | [(e & _ & _ & ->) | (ts & _ & Hts & Hloop)]]%discover_inv;
    try by apply Hsent.
  revert Hloop. apply for_of_invariant; [| by apply Hsent].
  intros t q q' r' Ht. by apply (Hreg cfg ts).
Qed.

Lemma register_listening c t p p' r :
  register c t p = (p', r) -> listening p' = listening p.
Proof.
  intros [(e & _ & -> & _) | (s & _ & H)]%register_inv; [done |].
  apply registerTool_inv in H as [(_ & -> & _) | (_ & _ & _ & H & _)]; done.
Qed.

(** [main] does not listen before its loop is over. *)
Lemma discovery_not_listening children p p' r :
  listening p = false ->
  for_of children (discover network) p = (p', r) ->
  listening p' = false.
Proof.
  apply (discovery_invariant (fun p => listening p = false)).
  - done.
  - intros cfg ts t q q' r' _ _ _ Hq H. by rewrite (register_listening _ _ _ _ _ H).
Qed.

Lemma discover_ok cfg p p' :
  discover network cfg p = (p', Ok tt) ->
  on_connect (network (url cfg)) = Ok tt
  /\ exists ts, on_listTools (network (url cfg)) = Ok ts
                /\ for_of ts (register (client_of cfg))
                     (sent [Connect (client_of cfg); ListTools (client_of cfg)] p)
                   = (p', Ok tt).
Proof.
  intros [(e & _ & [=] & _) | [(e & _ & [=] & _) | (ts & ? & ? & ?)]]%discover_inv.
  eauto.
Qed.

(** C5. If one of the configured upstreams refuses the connection or
    fails to list its tools, [main] throws, the process never reaches
    [app.listen], and no catalog is served, whatever the upstreams before
    it had advertised. *)
Theorem startup_fails_closed config cfg :
  cfg ∈ childrenConfig config ->
  (exists e, on_connect (network (url cfg)) = Throw e)
  \/ (exists e, on_listTools (network (url cfg)) = Throw e) ->
  let final := main network config (boot config) in
  (exists e, snd final = Throw e)
  /\ listening (fst final) = false
  /\ served (fst final) = None.
Proof.
  intros Hcfg Hfail final.
  assert (H : exists p e, final = (p, Throw e) /\ listening p = false).
  { unfold final, main, mbind, Async_bind.
    destruct (for_of _ _ _) as [p [[] | e]] eqn:Hloop.
    - exfalso. apply list_elem_of_split in Hcfg as (l1 & l2 & Hl). rewrite Hl in Hloop.
      apply for_of_ok_app in Hloop as (q & _ & Hloop).
      apply for_of_ok_cons in Hloop as (q' & (Hc & ts & Hts & _)%discover_ok & _).
      destruct Hfail as [[e He] | [e He]]; congruence.
    - exists p, e. split; [done |].
      by apply (discovery_not_listening (childrenConfig config) (boot config) p (Throw e)). }
  destruct H as (p & e & -> & Hp). simpl. unfold served. rewrite Hp. eauto.
Qed.

(** ** Two upstreams with the same tool name *)

(** A registration never replaces an entry of the table. *)
Lemma register_keeps c t p p' r name entry :
  registry p !! name = Some entry ->
  register c t p = (p', r) ->
  registry p' !! name = Some entry.
Proof.
  intros Hn [(e & _ & -> & _) | (s & _ & H)]%register_inv; [done |].
  apply registerTool_inv in H as [(_ & -> & _) | (Hfree & _ & -> & _)]; [done |].
  rewrite lookup_insert_ne; [done | congruence].
Qed.

Lemma register_ok c t p p' :
  register c t p = (p', Ok tt) ->
  registry p !! tool_name t = None /\ is_Some (registry p' !! tool_name t).
Proof.
  intros [(e & _ & _ & [=]) | (s & _ & H)]%register_inv.
  apply registerTool_inv in H as [(_ & _ & [=]) | (Hfree & _ & -> & _)].
  split; [done |]. rewrite lookup_insert_eq. by eexists.
Qed.

Lemma tools_loop_keeps c ts p p' r name entry :
  registry p !! name = Some entry ->
  for_of ts (register c) p = (p', r) ->
  registry p' !! name = Some entry.
Proof.
  apply (for_of_invariant (fun p => registry p !! name = Some entry)).
  intros t q q' r' _. apply register_keeps.
Qed.

Lemma discovery_keeps children p p' r name entry :
  registry p !! name = Some entry ->
  for_of children (discover network) p = (p', r) ->
  registry p' !! name = Some entry.
Proof.
  apply (discovery_invariant (fun p => registry p !! name = Some entry)).
  - done.
  - intros cfg ts t q q' r' _ _ _. apply register_keeps.
Qed.

Lemma tools_loop_registers c ts t p p' :
  t ∈ ts ->
  for_of ts (register c) p = (p', Ok tt) ->
  is_Some (registry p' !! tool_name t).
Proof.
  intros (l1 & l2 & ->)%list_elem_of_split (q & _ & H)%for_of_ok_app.
  apply for_of_ok_cons in H as (q' & [_ [entry He]]%register_ok & H).
  exists entry. by apply (tools_loop_keeps _ _ _ _ _ _ _ He H).
Qed.

Lemma tools_loop_free c ts t p p' :
  t ∈ ts ->
  for_of ts (register c) p = (p', Ok tt) ->
  registry p !! tool_name t = None.
Proof.
  intros (l1 & l2 & ->)%list_elem_of_split (q & H1 & H)%for_of_ok_app.
  apply for_of_ok_cons in H as (q' & [Hfree _]%register_ok & _).
  destruct (registry p !! tool_name t) as [entry |] eqn:E; [| done].
  rewrite (tools_loop_keeps _ _ _ _ _ _ _ E H1) in Hfree. done.
Qed.

(** C2, as the code has it.  When two configured upstreams list a tool
    of the same name, [main] does not complete: it throws, it never
    listens, and no catalog is served.  Nothing is overwritten on the
    way: [registerTool] refuses a name that is in its table with the
    [Error] ['Tool <name> is already registered'] and leaves the process
    as it was, and no registration of [main] replaces an entry of the
    table.  Which throw ends the start-up is not fixed by the two
    listings: an upstream may refuse the connection first. *)
Theorem duplicate_name_refused config l1 c1 l2 c2 l3 ts1 ts2 t1 t2 :
  childrenConfig config = l1 ++ c1 :: l2 ++ c2 :: l3 ->
  on_listTools (network (url c1)) = Ok ts1 -> t1 ∈ ts1 ->
  on_listTools (network (url c2)) = Ok ts2 -> t2 ∈ ts2 ->
  tool_name t1 = tool_name t2 ->
  let final := main network config (boot config) in
  (exists e, snd final = Throw e)
  /\ listening (fst final) = false
  /\ served (fst final) = None
  /\ (forall name description inputSchema cb p,
        is_Some (registry p !! name) ->
        registerTool name description inputSchema cb p
        = (p, Throw (Error ("Tool " +:+ name +:+ " is already registered"))))
  /\ (forall c t p name entry,
        registry p !! name = Some entry ->
        registry (fst (register c t p)) !! name = Some entry).
Proof.
  intros Hl H1 Ht1 H2 Ht2 Hname final.
  cut ((exists e, snd final = Throw e)
       /\ listening (fst final) = false /\ served (fst final) = None).
  { intros (? & ? & ?). repeat split; try done.
    - intros name d s cb p Hn. unfold registerTool, table_has.
      by rewrite (bool_decide_eq_true_2 _ Hn).
    - intros c t p name entry He. destruct (register c t p) as [p' r] eqn:E.
      by apply (register_keeps _ _ _ _ _ _ _ He E). }
  assert (H : exists p e, final = (p, Throw e) /\ listening p = false).
  { unfold final, main, mbind, Async_bind.
    destruct (for_of _ _ _) as [p [[] | e]] eqn:Hloop.
    - exfalso. rewrite Hl in Hloop.
      apply for_of_ok_app in Hloop as (q1 & _ & Hloop).
      apply for_of_ok_cons in Hloop as (q2 & (_ & ts & Hts & Hreg1)%discover_ok & Hloop).
      assert (ts = ts1) as -> by congruence.
      destruct (tools_loop_registers _ _ _ _ _ Ht1 Hreg1) as [entry He].
      apply for_of_ok_app in Hloop as (q3 & Hmid & Hloop).
      pose proof (discovery_keeps _ _ _ _ _ _ He Hmid) as He3.
      apply for_of_ok_cons in Hloop as (q4 & (_ & ts & Hts' & Hreg2)%discover_ok & _).
      assert (ts = ts2) as -> by congruence.
      pose proof (tools_loop_free _ _ _ _ _ Ht2 Hreg2) as Hfree.
      simpl in Hfree. rewrite <- Hname, He3 in Hfree. done.
    - exists p, e. split; [done |].
      by apply (discovery_not_listening (childrenConfig config) (boot config) p (Throw e)). }
  destruct H as (p & e & -> & Hp). simpl. unfold served. rewrite Hp. eauto.
Qed.

(** ** Dispatch *)

Lemma register_proxy children cfg ts t p p' r :
  cfg ∈ children ->
  on_listTools (network (url cfg)) = Ok ts -> t ∈ ts ->
  (forall name entry, registry p !! name = Some entry ->
                      proxy_of_advertised network children name entry) ->
  register (client_of cfg) t p = (p', r) ->
  forall name entry, registry p' !! name = Some entry ->
                     proxy_of_advertised network children name entry.
Proof.
  intros Hcfg Hts Ht Hp [(e & _ & -> & _) | (s & Hs & H)]%register_inv; [done |].
  apply registerTool_inv in H as [(_ & -> & _) | (_ & _ & -> & _)]; [done |].
  intros name entry [[<- <-] | [_ He]]%lookup_insert_Some; [| by apply Hp].
  exists cfg, ts, s. simpl. done.
Qed.

Lemma discovery_proxies children p p' r :
  (forall name entry, registry p !! name = Some entry ->
                      proxy_of_advertised network children name entry) ->
  for_of children (discover network) p = (p', r) ->
  forall name entry, registry p' !! name = Some entry ->
                     proxy_of_advertised network children name entry.
Proof.
  apply (discovery_invariant
           (fun p => forall name entry, registry p !! name = Some entry ->
                                        proxy_of_advertised network children name entry)).
  - done.
  - intros cfg ts t q q' r'. apply register_proxy.
Qed.

Lemma main_ok config p :
  main network config (boot config) = (p, Ok tt) ->
  exists q, for_of (childrenConfig config) (discover network) (boot config) = (q, Ok tt)
            /\ registry p = registry q /\ listening p = true.
Proof.
  unfold main. intros (q & [] & Hloop & [= <-])%bind_ok. by exists q.
Qed.

(** The top-level translator returns [z.record(z.any())] or a raw shape,
    so the registered input schema is a record or an object validator. *)
Lemma input_schema_forms jsonSchema s :
  jsonSchemaToZodSchema jsonSchema = Ok s ->
  getZodSchemaObject s = ZodRecord ZodAny
  \/ exists shape, getZodSchemaObject s = ZodObject shape.
Proof.
  unfold jsonSchemaToZodSchema. destruct (_ || _); [intros [= <-]; by left |].
  destruct (translate_required _ _ _) as [shape | e]; simpl; [| done].
  destruct (Nat.eqb (length shape) 0); intros [= <-]; simpl; eauto.
Qed.

(** What a record or an object validator returns is an object. *)
Lemma parse_object_result schema data parsed :
  schema = ZodRecord ZodAny \/ (exists shape, schema = ZodObject shape) ->
  Zod.parse schema data = Some parsed ->
  exists fields, parsed = VObj fields.
Proof.
  assert (Hobj : forall o : option (list (string * value)),
             VObj <$> o = Some parsed -> exists fields, parsed = VObj fields).
  { intros [out |]; simpl; [intros [= <-]; eauto | done]. }
  intros [-> | [shape ->]]; destruct data as [| | | | | | input]; try done; apply Hobj.
Qed.

(** C6. After [main] has completed, every entry of the table is the
    proxy of a tool that a configured upstream listed under that name.  A
    call to it is parsed with the stored input schema; when the arguments
    are refused nothing is sent; when they parse, exactly one request is
    sent, to the client that owns the tool, with the tool's name and the
    parsed arguments, and what that upstream answers, a result or an
    error, is what the call returns. *)
Theorem dispatch_forwards_parsed config p q name entry raw :
  main network config (boot config) = (p, Ok tt) ->
  server q = server p ->
  registry p !! name = Some entry ->
  let upstream_client := owner (callback entry) in
  (exists cfg ts t,
      cfg ∈ childrenConfig config /\ upstream_client = client_of cfg
      /\ on_listTools (network (url cfg)) = Ok ts /\ t ∈ ts /\ tool_name t = name)
  /\ match Zod.parse (inputSchema entry) raw with
     | Some parsed =>
         let forwarded := {| call_name := name; call_arguments := parsed |} in
         CallToolRequest network {| call_name := name; call_arguments := raw |} q
         = (sent [CallTool upstream_client forwarded] q,
            on_callTool (network (transport_url upstream_client)) forwarded)
     | None =>
         CallToolRequest network {| call_name := name; call_arguments := raw |} q
         = (q, Throw (McpError InvalidParams
                        ("Input validation error: Invalid arguments for tool " +:+ name)))
     end.
Proof.
  intros (q0 & Hloop & Hreg & _)%main_ok Hq He upstream_client.
  rewrite Hreg in He.
  assert (Hboot : forall name entry,
             registry (boot config) !! name = Some entry ->
             proxy_of_advertised network (childrenConfig config) name entry).
  { intros n e H. simpl in H. by rewrite lookup_empty in H. }
  destruct (discovery_proxies _ _ _ _ Hboot Hloop name entry He)
    as (cfg & ts & s & Hcfg & Hts & Ht & Ho & Hn & Hs & Hi).
  split; [exists cfg, ts, (proxied (callback entry)); done |].
  unfold CallToolRequest. simpl. rewrite Hq, Hreg, He.
  destruct (Zod.parse (inputSchema entry) raw) as [parsed |] eqn:Ep; [| done].
  assert (Hform : inputSchema entry = ZodRecord ZodAny
                  \/ exists shape, inputSchema entry = ZodObject shape)
    by (rewrite Hi; by eapply input_schema_forms).
  destruct (parse_object_result _ _ _ Hform Ep) as [fields ->].
  unfold proxy_call, Client_callTool, send, settle, mbind, Async_bind. simpl.
  by rewrite Hn.
Qed.

(** ** Absent arguments *)

(** A validator that accepts [undefined] or [null] returns it as it is. *)
Lemma parse_nullish schema raw parsed :
  raw = VUndefined \/ raw = VNull ->
  Zod.parse schema raw = Some parsed ->
  parsed = raw.
Proof.
  intros Hraw. induction schema; destruct Hraw as [-> | ->]; simpl; try done;
    try (by intros [= <-]); auto.
Qed.

(** C10. When a call arrives with [undefined] or [null] as arguments and
    the input schema of the tool accepts that, the callback sends the
    empty object [{}] as the arguments of the one request it makes to the
    owning client, and returns what the upstream answers. *)
Theorem absent_arguments_forwarded_as_empty p name entry raw :
  registry p !! name = Some entry ->
  raw = VUndefined \/ raw = VNull ->
  Zod.accepts (inputSchema entry) raw = true ->
  let cb := callback entry in
  let forwarded := {| call_name := tool_name (proxied cb); call_arguments := VObj [] |} in
  CallToolRequest network {| call_name := name; call_arguments := raw |} p
  = (sent [CallTool (owner cb) forwarded] p,
     on_callTool (network (transport_url (owner cb))) forwarded).
Proof.
  intros He Hraw [parsed Hp]%accepts_true cb forwarded.
  unfold CallToolRequest. simpl. rewrite He, Hp.
  rewrite (parse_nullish _ _ _ Hraw Hp).
  by destruct Hraw as [-> | ->].
Qed.

End Startup.

(** ** The theorems at concrete upstreams *)

Lemma startup_fails_closed_witness :
  let final := main b_unreachable config (boot config) in
  (exists e, snd final = Throw e)
  /\ listening (fst final) = false
  /\ served (fst final) = None.
Proof.
  apply (startup_fails_closed b_unreachable config child_b).
  - apply list_elem_of_further, list_elem_of_here.
  - left. exists (Rejected "fetch failed"). reflexivity.
Defined.

Lemma duplicate_name_refused_witness :
  let final := main both_ping config (boot config) in
  (exists e, snd final = Throw e)
  /\ listening (fst final) = false
  /\ served (fst final) = None
  /\ (forall name description inputSchema cb p,
        is_Some (registry p !! name) ->
        registerTool name description inputSchema cb p
        = (p, Throw (Error ("Tool " +:+ name +:+ " is already registered"))))
  /\ (forall c t p name entry,
        registry p !! name = Some entry ->
        registry (fst (register c t p)) !! name = Some entry).
Proof.
  apply (duplicate_name_refused both_ping config [] child_a [] child_b [] [ping] [ping] ping ping).
  - reflexivity.
  - reflexivity.
  - apply list_elem_of_here.
  - reflexivity.
  - apply list_elem_of_here.
  - reflexivity.
Defined.

(** The claim C2 as the specification words it does not hold: with both
    configured upstreams listing [ping], [main] throws at the second
    registration, the entry for [ping] still routes to the first upstream,
    and nothing is served. *)
Lemma last_write_wins_counterexample :
  let final := main both_ping config (boot config) in
  snd final = Throw (Error "Tool ping is already registered")
  /\ owner ∘ callback <$> registry (fst final) !! "ping" = Some (client_of child_a)
  /\ served (fst final) = None.
Proof. vm_compute. done. Qed.

Lemma dispatch_forwards_parsed_witness :
  let p := fst (main joke_and_name_age config (boot config)) in
  let raw := VObj [("name", VStr "sam"); ("extra", VNum 1)] in
  let forwarded :=
    {| call_name := "name-age"; call_arguments := VObj [("name", VStr "sam")] |} in
  (exists cfg ts t,
      cfg ∈ childrenConfig config /\ client_of child_b = client_of cfg
      /\ on_listTools (joke_and_name_age (url cfg)) = Ok ts /\ t ∈ ts
      /\ tool_name t = "name-age")
  /\ CallToolRequest joke_and_name_age {| call_name := "name-age"; call_arguments := raw |} p
     = (sent [CallTool (client_of child_b) forwarded] p,
        on_callTool (joke_and_name_age (url child_b)) forwarded).
Proof.
  exact (dispatch_forwards_parsed joke_and_name_age config
           (fst (main joke_and_name_age config (boot config)))
           (fst (main joke_and_name_age config (boot config)))
           "name-age" name_age_entry
           (VObj [("name", VStr "sam"); ("extra", VNum 1)])
           ltac:(vm_compute; reflexivity) eq_refl ltac:(vm_compute; reflexivity)).
Defined.

Lemma absent_arguments_forwarded_as_empty_witness :
  let forwarded := {| call_name := "joke"; call_arguments := VObj [] |} in
  CallToolRequest joke_and_name_age
    {| call_name := "joke"; call_arguments := VUndefined |} lenient_process
  = (sent [CallTool (client_of child_a) forwarded] lenient_process,
     on_callTool (joke_and_name_age (url child_a)) forwarded).
Proof.
  apply (absent_arguments_forwarded_as_empty joke_and_name_age lenient_process
           "joke" lenient_entry VUndefined).
  - vm_compute. reflexivity.
  - left. reflexivity.
  - vm_compute. reflexivity.
Defined.

(** * Further properties of the translator *)

(** ** What array, object and record validators accept *)

Section Containers.

Lemma parse_object shape fields :
  Zod.parse (ZodObject shape) (VObj fields) = VObj <$> object_pairs fields [] shape.
Proof. reflexivity. Qed.

Lemma parse_record valueType fields :
  Zod.parse (ZodRecord valueType) (VObj fields) = VObj <$> record_pairs valueType [] fields.
Proof. reflexivity. Qed.

Lemma object_pairs_is_Some fields shape acc :
  is_Some (object_pairs fields acc shape)
  <-> Forall (fun kz => Zod.accepts (snd kz) (default VUndefined (Js.assoc_get (fst kz) fields))
                        = true) shape.
Proof.
  revert acc. induction shape as [| [key z] shape IH]; intros acc; simpl.
  - split; [constructor | by eexists].
  - rewrite Forall_cons. simpl. rewrite accepts_true.
    destruct (Zod.parse z _) as [v |]; simpl.
    + rewrite IH. split; [intros H; split; [by eexists | done] | by intros [_ H]].
    + split; [by intros [? [=]] | by intros [[? [=]] _]].
Qed.

Lemma accepts_object shape data :
  Zod.accepts (ZodObject shape) data = true
  <-> exists fields,
      data = VObj fields
      /\ Forall (fun kz => Zod.accepts (snd kz) (Js.prop data (fst kz)) = true) shape.
Proof.
  rewrite accepts_true. destruct data as [| | | | | | fields];
    try (split; [by intros [? [=]] | by intros (? & [=] & _)]).
  rewrite parse_object, fmap_is_Some, object_pairs_is_Some. simpl.
  split; [intros H; by exists fields | by intros (? & [= <-] & H)].
Qed.

Lemma accepts_array element data :
  Zod.accepts (ZodArray element) data = true
  <-> exists elems,
      data = VArr elems /\ Forall (fun x => Zod.accepts element x = true) elems.
Proof.
  rewrite accepts_true. destruct data as [| | | | | elems |];
    try (split; [by intros [? [=]] | by intros (? & [=] & _)]).
  simpl. rewrite fmap_is_Some, mapM_is_Some.
  assert (E : Forall (is_Some ∘ Zod.parse element) elems
              <-> Forall (fun x => Zod.accepts element x = true) elems).
  { apply Forall_proper; [| done]. intros x. simpl. by rewrite accepts_true. }
  rewrite E. split; [intros H; by exists elems | by intros (? & [= <-] & H)].
Qed.

Lemma record_any_pairs fields acc : is_Some (record_pairs ZodAny acc fields).
Proof.
  revert acc. induction fields as [| [key x] fields IH]; intros acc; simpl; [by eexists |].
  apply IH.
Qed.

Lemma accepts_record_any data :
  Zod.accepts (ZodRecord ZodAny) data = true <-> exists fields, data = VObj fields.
Proof.
  rewrite accepts_true. destruct data as [| | | | | | fields];
    try (split; [by intros [? [=]] | by intros (? & [=])]).
  rewrite parse_record, fmap_is_Some. split; [by eexists | intros _; apply record_any_pairs].
Qed.

Lemma accepts_handle_nullable_iff ps schema data :
  Zod.accepts (handle_nullable ps schema) data = true
  <-> (data = VNull /\ marked_nullable ps = true) \/ Zod.accepts schema data = true.
Proof.
  unfold handle_nullable. destruct (marked_nullable ps).
  - rewrite accepts_nullable_iff. tauto.
  - intuition discriminate.
Qed.

(** The mark is read as [nullable === true] when [type] is one kind
    other than ['null']. *)
Lemma marked_nullable_kind ps k :
  Js.prop ps "type" = VStr k -> k <> "null" ->
  marked_nullable ps = true <-> Js.prop ps "nullable" = VBool true.
Proof.
  intros Et Hk. unfold marked_nullable. rewrite Et. simpl.
  replace (String.eqb k "null") with false by (symmetry; by apply String.eqb_neq).
  simpl. by rewrite orb_false_r, is_true_iff.
Qed.

End Containers.

(** ** The validator of each kind *)

Section Kinds.

Lemma translate_kind ps k z0 :
  Js.prop ps "type" = VStr k ->
  switch_type (fun v => Some (jsonSchemaPropertyToZod v)) ps (VStr k) = Some z0 ->
  jsonSchemaPropertyToZod ps = handle_nullable ps z0.
Proof.
  intros Et Hs. pose proof (translate_switch ps) as E. rewrite Et, Hs in E.
  specialize (E (prop_object_like ps "type" ltac:(by rewrite Et)) eq_refl).
  simpl in E. congruence.
Qed.

Lemma translate_properties_pure self es shape :
  translate_properties (fun v => Some (self v)) shape es
  = Some (declared_shape self es shape).
Proof.
  revert shape. induction es as [| [key v] es IH]; intros shape; simpl; [done |].
  apply IH.
Qed.

Lemma translate_kind_array ps :
  Js.prop ps "type" = VStr "array" ->
  jsonSchemaPropertyToZod ps
  = handle_nullable ps
      (ZodArray (if Js.truthy (Js.prop ps "items")
                 then jsonSchemaPropertyToZod (Js.prop ps "items") else ZodAny)).
Proof.
  intros Et. apply (translate_kind ps "array"); [done |].
  unfold switch_type. simpl. by destruct (Js.truthy (Js.prop ps "items")).
Qed.

Lemma translate_kind_object ps :
  Js.prop ps "type" = VStr "object" ->
  jsonSchemaPropertyToZod ps
  = handle_nullable ps
      (if Js.truthy (Js.prop ps "properties")
       then ZodObject (declared_shape jsonSchemaPropertyToZod
                         (Js.entries (Js.prop ps "properties")) [])
       else ZodRecord ZodAny).
Proof.
  intros Et. apply (translate_kind ps "object"); [done |].
  unfold switch_type. simpl. destruct (Js.truthy (Js.prop ps "properties")); [| done].
  by rewrite translate_properties_pure.
Qed.

(** Assigning a name that the shape does not have yet adds it at the
    end. *)
Lemma assoc_set_fresh {A} k (a : A) l : k ∉ l.*1 -> Js.assoc_set k a l = l ++ [(k, a)].
Proof.
  induction l as [| [k' a'] l IH]; simpl; [done |].
  intros H. apply not_elem_of_cons in H as [Hne Hl].
  replace (String.eqb k' k) with false by (symmetry; apply String.eqb_neq; congruence).
  by rewrite IH.
Qed.

(** On the entries of a plain object the shape has one key per property,
    in order. *)
Lemma declared_shape_plain self es shape :
  NoDup (es.*1) -> "__proto__" ∉ es.*1 ->
  (forall k, k ∈ es.*1 -> k ∉ shape.*1) ->
  declared_shape self es shape = shape ++ map (fun kv => (fst kv, self (snd kv))) es.
Proof.
  revert shape. induction es as [| [key v] es IH]; intros shape Hnd Hp Hfresh; simpl.
  - by rewrite app_nil_r.
  - apply NoDup_cons in Hnd as [Hkey Hnd]. simpl in Hp.
    apply not_elem_of_cons in Hp as [Hne Hp].
    unfold declared_shape in *. simpl. unfold shape_assign at 2.
    replace (String.eqb key "__proto__") with false
      by (symmetry; apply String.eqb_neq; congruence).
    rewrite assoc_set_fresh by (apply Hfresh; left).
    rewrite IH; [by rewrite <- app_assoc | done | done |].
    intros k Hk. rewrite fmap_app. simpl. rewrite elem_of_app, list_elem_of_singleton.
    intros [H | ->]; [| done]. apply (Hfresh k); [by right | done].
Qed.

Lemma declared_shape_plain_object self props :
  plain_object props ->
  declared_shape self props [] = map (fun kv => (fst kv, self (snd kv))) props.
Proof.
  intros [Hnd Hp]. rewrite declared_shape_plain; try done.
  intros k _. apply not_elem_of_nil.
Qed.

End Kinds.

(** X1. An [array] schema gives a validator that accepts exactly the
    arrays all of whose elements the validator of [items] accepts (any
    element when [items] is absent or falsy), and [null] as well when the
    schema is marked [nullable: true]. *)
Theorem array_schema_checks_elements ps :
  Js.prop ps "type" = VStr "array" ->
  let element := if Js.truthy (Js.prop ps "items")
                 then jsonSchemaPropertyToZod (Js.prop ps "items") else ZodAny in
  forall data,
    Zod.accepts (jsonSchemaPropertyToZod ps) data = true
    <-> (exists elems, data = VArr elems
                       /\ Forall (fun x => Zod.accepts element x = true) elems)
        \/ (data = VNull /\ Js.prop ps "nullable" = VBool true).
Proof.
  intros Et element data. rewrite (translate_kind_array ps Et).
  rewrite accepts_handle_nullable_iff, accepts_array.
  rewrite (marked_nullable_kind ps "array") by done. tauto.
Qed.

Lemma array_schema_checks_elements_witness :
  let ps := VObj [("type", VStr "array"); ("items", VObj [("type", VStr "integer")])] in
  (Zod.accepts (jsonSchemaPropertyToZod ps) (VArr [VNum 1; VStr "x"]) = true
   <-> (exists elems, VArr [VNum 1; VStr "x"] = VArr elems
                      /\ Forall (fun x => Zod.accepts
                                            (jsonSchemaPropertyToZod (VObj [("type", VStr "integer")]))
                                            x = true) elems)
       \/ (VArr [VNum 1; VStr "x"] = VNull /\ Js.prop ps "nullable" = VBool true)).
Proof.
  exact (array_schema_checks_elements
           (VObj [("type", VStr "array"); ("items", VObj [("type", VStr "integer")])])
           eq_refl (VArr [VNum 1; VStr "x"])).
Defined.

(** X2. An [object] schema whose [properties] is a plain object gives a
    validator that accepts exactly the objects in which every declared
    property, read as [undefined] when it is absent, is accepted by the
    validator of its own schema; keys that are not declared are not
    looked at.  [null] is accepted as well when the schema is marked
    [nullable: true]. *)
Theorem object_node_checks_declared ps props :
  Js.prop ps "type" = VStr "object" ->
  Js.prop ps "properties" = VObj props ->
  plain_object props ->
  forall data,
    Zod.accepts (jsonSchemaPropertyToZod ps) data = true
    <-> (exists fields,
            data = VObj fields
            /\ forall key sub, (key, sub) ∈ props ->
                 Zod.accepts (jsonSchemaPropertyToZod sub) (Js.prop data key) = true)
        \/ (data = VNull /\ Js.prop ps "nullable" = VBool true).
Proof.
  intros Et Ep Hplain data. rewrite (translate_kind_object ps Et), Ep. simpl Js.truthy.
  cbv iota. simpl Js.entries. rewrite (declared_shape_plain_object _ _ Hplain).
  rewrite accepts_handle_nullable_iff, accepts_object.
  rewrite (marked_nullable_kind ps "object") by done.
  assert (E :
             Forall (fun kz => Zod.accepts (snd kz) (Js.prop data (fst kz)) = true)
               (map (fun kv => (fst kv, jsonSchemaPropertyToZod (snd kv))) props)
             <-> forall key sub, (key, sub) ∈ props ->
                   Zod.accepts (jsonSchemaPropertyToZod sub) (Js.prop data key) = true).
  { rewrite Forall_map, Forall_forall. simpl. split.
    - intros H key sub Hin. apply (H (key, sub) Hin).
    - intros H [key sub] Hin. by apply H. }
  split.
  - intros [H | (fields & -> & H)]; [by right |].
    left. exists fields. split; [done | by apply E].
  - intros [(fields & -> & H) | H]; [| by left].
    right. exists fields. split; [done | by apply E].
Qed.

Lemma object_node_checks_declared_witness :
  let sub := VObj [("type", VStr "string")] in
  let ps := VObj [("type", VStr "object"); ("properties", VObj [("b", sub)])] in
  Zod.accepts (jsonSchemaPropertyToZod ps) (VObj [("extra", VNum 1)]) = true
  <-> (exists fields,
          VObj [("extra", VNum 1)] = VObj fields
          /\ forall key sub', (key, sub') ∈ [("b", sub)] ->
               Zod.accepts (jsonSchemaPropertyToZod sub')
                 (Js.prop (VObj [("extra", VNum 1)]) key) = true)
      \/ (VObj [("extra", VNum 1)] = VNull /\ Js.prop ps "nullable" = VBool true).
Proof.
  apply (object_node_checks_declared
           (VObj [("type", VStr "object");
                  ("properties", VObj [("b", VObj [("type", VStr "string")])])])
           [("b", VObj [("type", VStr "string")])] eq_refl eq_refl).
  split.
  - apply NoDup_cons. split; [apply not_elem_of_nil | apply NoDup_nil_2].
  - intros H. apply list_elem_of_singleton in H. discriminate.
Defined.

(** X3. An [object] schema without [properties] (absent or falsy) gives
    an open validator: it accepts every object whatever its keys, and no
    array, string, number, boolean or [undefined]; [null] only when the
    schema is marked [nullable: true]. *)
Theorem object_without_properties_is_open ps :
  Js.prop ps "type" = VStr "object" ->
  Js.truthy (Js.prop ps "properties") = false ->
  forall data,
    Zod.accepts (jsonSchemaPropertyToZod ps) data = true
    <-> (exists fields, data = VObj fields)
        \/ (data = VNull /\ Js.prop ps "nullable" = VBool true).
Proof.
  intros Et Ep data. rewrite (translate_kind_object ps Et), Ep.
  rewrite accepts_handle_nullable_iff, accepts_record_any.
  rewrite (marked_nullable_kind ps "object") by done. tauto.
Qed.

Lemma object_without_properties_is_open_witness :
  let ps := VObj [("type", VStr "object")] in
  let data := VArr [VNum 1] in
  Zod.accepts (jsonSchemaPropertyToZod ps) data = true
  <-> (exists fields, data = VObj fields)
      \/ (data = VNull /\ Js.prop ps "nullable" = VBool true).
Proof.
  exact (object_without_properties_is_open (VObj [("type", VStr "object")]) eq_refl eq_refl
           (VArr [VNum 1])).
Defined.

Lemma accepts_number int data :
  Zod.accepts (ZodNumber int) data = true
  <-> exists q, data = VNum q /\ (int = true -> Js.isInteger q = true).
Proof.
  rewrite accepts_true. destruct data as [| | | q | | |]; simpl;
    try (split; [by intros [? [=]] | by intros (? & [=] & _)]).
  destruct int, (Js.isInteger q) eqn:Ei; simpl.
  - split; [intros _; exists q; by rewrite Ei | by eexists].
  - split; [by intros [? [=]] |]. intros (q' & [= <-] & H). specialize (H eq_refl). congruence.
  - split; [intros _; by exists q | by eexists].
  - split; [intros _; by exists q | by eexists].
Qed.

Lemma accepts_boolean data :
  Zod.accepts ZodBoolean data = true <-> exists b, data = VBool b.
Proof.
  rewrite accepts_true. destruct data; simpl;
    try (split; [by intros [? [=]] | by intros (? & [=])]);
    try (split; by eexists).
Qed.

Lemma accepts_null data : Zod.accepts ZodNull data = true <-> data = VNull.
Proof.
  rewrite accepts_true. destruct data; simpl;
    try (split; [by intros [? [=]] | done]);
    try (split; [done | by eexists]).
Qed.

(** X4. The validators of the kinds without parts: [number] accepts
    exactly the numbers, [integer] exactly the numbers that are integers,
    [boolean] exactly the two booleans, each with [null] added when the
    schema is marked [nullable: true]; [null] accepts exactly [null],
    marked or not. *)
Theorem primitive_kinds_accept ps k :
  Js.prop ps "type" = VStr k ->
  forall data,
    let nullable := data = VNull /\ Js.prop ps "nullable" = VBool true in
    (k = "number" ->
     Zod.accepts (jsonSchemaPropertyToZod ps) data = true
     <-> (exists q, data = VNum q) \/ nullable)
    /\ (k = "integer" ->
        Zod.accepts (jsonSchemaPropertyToZod ps) data = true
        <-> (exists q, data = VNum q /\ Js.isInteger q = true) \/ nullable)
    /\ (k = "boolean" ->
        Zod.accepts (jsonSchemaPropertyToZod ps) data = true
        <-> (exists b, data = VBool b) \/ nullable)
    /\ (k = "null" ->
        Zod.accepts (jsonSchemaPropertyToZod ps) data = true <-> data = VNull).
Proof.
  intros Et data nullable. unfold nullable. split; [| split; [| split]].
  - intros ->. rewrite (translate_kind ps "number" (ZodNumber false) Et eq_refl).
    rewrite accepts_handle_nullable_iff, accepts_number.
    rewrite (marked_nullable_kind ps "number") by done. split.
    + intros [H | (q & -> & _)]; [by right | left; by exists q].
    + intros [[q ->] | H]; [right; by exists q | by left].
  - intros ->. rewrite (translate_kind ps "integer" (ZodNumber true) Et eq_refl).
    rewrite accepts_handle_nullable_iff, accepts_number.
    rewrite (marked_nullable_kind ps "integer") by done. split.
    + intros [H | (q & -> & Hq)]; [by right | left; exists q; auto].
    + intros [(q & -> & Hq) | H]; [right; by exists q | by left].
  - intros ->. rewrite (translate_kind ps "boolean" ZodBoolean Et eq_refl).
    rewrite accepts_handle_nullable_iff, accepts_boolean.
    rewrite (marked_nullable_kind ps "boolean") by done. tauto.
  - intros ->. rewrite (translate_kind ps "null" ZodNull Et eq_refl).
    rewrite accepts_handle_nullable_iff, accepts_null.
    unfold marked_nullable. rewrite Et. simpl. intuition discriminate.
Qed.

Lemma primitive_kinds_accept_witness :
  (Zod.accepts (jsonSchemaPropertyToZod (VObj [("type", VStr "integer")])) (VNum (3 # 2)) = true
   <-> (exists q, VNum (3 # 2) = VNum q /\ Js.isInteger q = true)
       \/ (VNum (3 # 2) = VNull
           /\ Js.prop (VObj [("type", VStr "integer")]) "nullable" = VBool true))
  /\ (Zod.accepts
        (jsonSchemaPropertyToZod (VObj [("type", VStr "null"); ("nullable", VBool true)]))
        VUndefined = true
      <-> VUndefined = VNull).
Proof.
  split.
  - exact (proj1 (proj2 (primitive_kinds_accept (VObj [("type", VStr "integer")]) "integer"
                           eq_refl (VNum (3 # 2)))) eq_refl).
  - exact (proj2 (proj2 (proj2 (primitive_kinds_accept
                                  (VObj [("type", VStr "null"); ("nullable", VBool true)])
                                  "null" eq_refl VUndefined))) eq_refl).
Defined.

(** X5. A schema whose [type] is none of the seven kinds (a missing
    [type], an unknown name, a number, ...) gives a validator that accepts
    every value, [undefined] included. *)
Theorem unknown_kind_unconstrained ps :
  Js.isArray (Js.prop ps "type") = false ->
  kind_of (Js.prop ps "type") = KDefault ->
  forall data, Zod.accepts (jsonSchemaPropertyToZod ps) data = true.
Proof.
  intros Ha Hk data.
  destruct (negb (Js.truthy ps) || negb (Js.typeof_object ps)) eqn:Ho.
  - rewrite (translate_not_object ps Ho). apply accepts_any.
  - pose proof (translate_switch ps Ho Ha) as E.
    unfold switch_type in E. rewrite Hk in E. simpl in E. injection E as <-.
    apply accepts_handle_nullable_iff. right. apply accepts_any.
Qed.

Lemma unknown_kind_unconstrained_witness :
  Zod.accepts (jsonSchemaPropertyToZod (VObj [("type", VStr "date"); ("format", VStr "iso")]))
    VUndefined = true.
Proof.
  exact (unknown_kind_unconstrained (VObj [("type", VStr "date"); ("format", VStr "iso")])
           eq_refl eq_refl VUndefined).
Defined.

(** X6. The translator looks at [type], [enum], [items], [properties]
    and [nullable] and at nothing else: setting any other keyword of a
    schema ([minLength], [minimum], [pattern], [additionalProperties],
    [required], ...) to any value leaves the validator the same. *)
Theorem unread_keywords_ignored fields keyword x :
  keyword ∉ read_names ->
  jsonSchemaPropertyToZod (Js.spread_with (VObj fields) keyword x)
  = jsonSchemaPropertyToZod (VObj fields).
Proof.
  intros Hk. unfold read_names in Hk.
  repeat (apply not_elem_of_cons in Hk as [? Hk]).
  assert (Hne : forall name, keyword <> name -> String.eqb keyword name = false)
    by (intros name; apply String.eqb_neq).
  apply translate_same_reads.
  - unfold same_shape. rewrite !prop_assoc_set, !Hne by done. done.
  - rewrite prop_assoc_set, Hne by done. done.
Qed.

Lemma unread_keywords_ignored_witness :
  jsonSchemaPropertyToZod
    (Js.spread_with (VObj [("type", VStr "string")]) "minLength" (VNum 3))
  = jsonSchemaPropertyToZod (VObj [("type", VStr "string")]).
Proof.
  apply (unread_keywords_ignored [("type", VStr "string")] "minLength" (VNum 3)).
  unfold read_names. intros H.
  repeat (apply elem_of_cons in H as [H | H]; [discriminate |]).
  by apply elem_of_nil in H.
Defined.

(** ** No optional key below the top level *)

Section NoOptional.

Lemma shape_assign_no_optional key z shape :
  no_optional z = true ->
  forallb (fun kz => no_optional (snd kz)) shape = true ->
  forallb (fun kz => no_optional (snd kz)) (shape_assign key z shape) = true.
Proof.
  intros Hz. unfold shape_assign. destruct (String.eqb key "__proto__"); [done |].
  induction shape as [| [k' z'] shape IH]; simpl.
  - by rewrite Hz.
  - intros [H1 H2]%andb_prop. destruct (String.eqb k' key); simpl.
    + by rewrite Hz, H2.
    + by rewrite H1, IH.
Qed.

Lemma translate_properties_no_optional self es shape sh :
  (forall v z, self v = Some z -> no_optional z = true) ->
  forallb (fun kz => no_optional (snd kz)) shape = true ->
  translate_properties self shape es = Some sh ->
  forallb (fun kz => no_optional (snd kz)) sh = true.
Proof.
  intros Hself. revert shape. induction es as [| [key v] es IH]; intros shape Hshape; simpl.
  - by intros [= <-].
  - destruct (self v) as [z |] eqn:E; simpl; [| done].
    apply IH. apply shape_assign_no_optional; [by apply (Hself v) | done].
Qed.

Lemma fuel_no_optional n ps z :
  jsonSchemaPropertyToZod_fuel n ps = Some z -> no_optional z = true.
Proof.
  revert ps z. induction n as [| n IH]; intros ps z; [done |].
  change (jsonSchemaPropertyToZod_body (jsonSchemaPropertyToZod_fuel n) ps = Some z
          -> no_optional z = true).
  unfold jsonSchemaPropertyToZod_body.
  destruct (negb (Js.truthy ps) || negb (Js.typeof_object ps)); [by intros [= <-] |].
  assert (Hsw : forall type,
             switch_type (jsonSchemaPropertyToZod_fuel n) ps type
             ≫= (fun zodSchema => Some (handle_nullable ps zodSchema)) = Some z ->
             no_optional z = true).
  { intros type. destruct (switch_type _ _ _) as [z0 |] eqn:E; simpl; [| done].
    intros [= <-].
    assert (H0 : no_optional z0 = true).
    { unfold switch_type in E. destruct (kind_of type); try (by injection E as <-).
      - destruct (Js.prop ps "enum"); by injection E as <-.
      - destruct (Js.truthy (Js.prop ps "items")); [| by injection E as <-].
        destruct (jsonSchemaPropertyToZod_fuel n _) as [z1 |] eqn:E1; simpl in E; [| done].
        injection E as <-. simpl. by apply (IH _ _ E1).
      - destruct (Js.truthy (Js.prop ps "properties")); [| by injection E as <-].
        destruct (translate_properties _ _ _) as [sh |] eqn:E1; simpl in E; [| done].
        injection E as <-. simpl.
        by apply (translate_properties_no_optional _ _ [] sh IH eq_refl E1). }
    unfold handle_nullable. by destruct (marked_nullable ps). }
  destruct (Js.prop ps "type") as [| | | | | types |]; try apply Hsw.
  destruct (_ && _).
  - destruct (jsonSchemaPropertyToZod_fuel n _) as [z1 |] eqn:E1; simpl; [| done].
    intros [= <-]. simpl. by apply (IH _ _ E1).
  - apply IH.
Qed.

End NoOptional.

(** X7. [jsonSchemaPropertyToZod] never builds an optional key: on every
    schema, at every depth of its result, no validator is wrapped in
    [.optional()].  Only the top-level [jsonSchemaToZodSchema] does that. *)
Theorem translator_never_optional ps :
  no_optional (jsonSchemaPropertyToZod ps) = true.
Proof.
  apply (fuel_no_optional (size ps) ps). by apply fuel_enough.
Qed.

(** * Further properties of the top-level translator *)

Section TopLevel.

Lemma accepts_optional_iff inner data :
  Zod.accepts (ZodOptional inner) data = true
  <-> data = VUndefined \/ Zod.accepts inner data = true.
Proof.
  rewrite !accepts_true. destruct data; simpl; try (intuition discriminate).
  split; [by left | intros _; by eexists].
Qed.

Lemma translate_required_plain names es shape :
  NoDup (es.*1) -> "__proto__" ∉ es.*1 ->
  (forall k, k ∈ es.*1 -> k ∉ shape.*1) ->
  translate_required (VArr names) shape es
  = Ok (shape ++ map (fun kv => (fst kv, top_level_validator names (fst kv) (snd kv))) es).
Proof.
  revert shape. induction es as [| [key ps] es IH]; intros shape Hnd Hp Hfresh; simpl.
  - by rewrite app_nil_r.
  - apply NoDup_cons in Hnd as [Hkey Hnd]. simpl in Hp.
    apply not_elem_of_cons in Hp as [Hne Hp].
    unfold shape_assign.
    replace (String.eqb key "__proto__") with false
      by (symmetry; apply String.eqb_neq; congruence).
    rewrite assoc_set_fresh by (apply Hfresh; left).
    rewrite IH; try done.
    + rewrite <- app_assoc. simpl. unfold top_level_validator at 2.
      by destruct (Js.includes_str names key).
    + intros k Hk. rewrite fmap_app. simpl. rewrite elem_of_app, list_elem_of_singleton.
      intros [H | ->]; [| done]. apply (Hfresh k); [by right | done].
Qed.

(** A record of unconstrained values returns a plain object as it is. *)
Lemma record_any_plain fields acc :
  NoDup (fields.*1) -> "__proto__" ∉ fields.*1 ->
  (forall k, k ∈ fields.*1 -> k ∉ acc.*1) ->
  record_pairs ZodAny acc fields = Some (acc ++ fields).
Proof.
  revert acc. induction fields as [| [key x] fields IH]; intros acc Hnd Hp Hfresh; simpl.
  - by rewrite app_nil_r.
  - apply NoDup_cons in Hnd as [Hkey Hnd]. simpl in Hp.
    apply not_elem_of_cons in Hp as [Hne Hp].
    unfold Zod.merge_pair.
    replace (String.eqb key "__proto__") with false
      by (symmetry; apply String.eqb_neq; congruence).
    rewrite orb_true_r. simpl. rewrite assoc_set_fresh by (apply Hfresh; left).
    rewrite IH; try done; [by rewrite <- app_assoc |].
    intros k Hk. rewrite fmap_app. simpl. rewrite elem_of_app, list_elem_of_singleton.
    intros [H | ->]; [| done]. apply (Hfresh k); [by right | done].
Qed.

End TopLevel.

(** X8. When the schema of a tool is absent, is not of type ['object'],
    or declares no property, [jsonSchemaToZodSchema] returns
    [z.record(z.any())] without reading [required]; that validator
    accepts exactly the objects and returns a plain object with all its
    keys and values unchanged. *)
Theorem top_level_passthrough jsonSchema :
  Js.truthy jsonSchema = false
  \/ Js.is_str (Js.prop jsonSchema "type") "object" = false
  \/ Js.entries (Js.or_else (Js.prop jsonSchema "properties") (VObj [])) = [] ->
  jsonSchemaToZodSchema jsonSchema = Ok (ZodSchema (ZodRecord ZodAny))
  /\ (forall data, Zod.accepts (ZodRecord ZodAny) data = true
                   <-> exists fields, data = VObj fields)
  /\ (forall fields, plain_object fields ->
                     Zod.parse (ZodRecord ZodAny) (VObj fields) = Some (VObj fields)).
Proof.
  intros H. split; [| split].
  - unfold jsonSchemaToZodSchema.
    destruct (Js.truthy jsonSchema); simpl; [| done].
    destruct (Js.is_str (Js.prop jsonSchema "type") "object"); simpl; [| done].
    destruct H as [H | [H | H]]; try done. by rewrite H.
  - apply accepts_record_any.
  - intros fields [Hnd Hp]. rewrite parse_record, record_any_plain; try done.
    intros k _. apply not_elem_of_nil.
Qed.

Lemma top_level_passthrough_witness :
  jsonSchemaToZodSchema (VObj [("type", VStr "object"); ("properties", VObj [])])
  = Ok (ZodSchema (ZodRecord ZodAny))
  /\ (forall data, Zod.accepts (ZodRecord ZodAny) data = true
                   <-> exists fields, data = VObj fields)
  /\ (forall fields, plain_object fields ->
                     Zod.parse (ZodRecord ZodAny) (VObj fields) = Some (VObj fields)).
Proof.
  apply (top_level_passthrough (VObj [("type", VStr "object"); ("properties", VObj [])])).
  right. right. reflexivity.
Defined.

(** X9. At the top level, for a schema of type ['object'] whose
    [properties] is a non-empty plain object that declares no property
    under the name of a member of [Object.prototype], whose [required]
    is absent or an array, and on a stack that holds each of the
    declared properties, [jsonSchemaToZodSchema] returns a raw shape
    with one key per declared property, optional unless its name is in
    [required].  The validator [z.object(shape)] over that shape accepts
    exactly the objects in which every declared property is either
    accepted by the validator of its schema, or absent and not
    required. *)
Theorem top_level_required_optional stack jsonSchema props names :
  Js.prop jsonSchema "type" = VStr "object" ->
  Js.prop jsonSchema "properties" = VObj props ->
  props <> [] ->
  plain_object props ->
  (forall key, key ∈ props.*1 -> key ∉ Js.prototype_members) ->
  (forall key sub, (key, sub) ∈ props -> depth sub <= stack) ->
  Js.or_else (Js.prop jsonSchema "required") (VArr []) = VArr names ->
  let shape := map (fun kv => (fst kv, top_level_validator names (fst kv) (snd kv))) props in
  jsonSchemaToZodSchema_on stack jsonSchema = Ok (RawShape shape)
  /\ forall data,
       Zod.accepts (ZodObject shape) data = true
       <-> exists fields,
           data = VObj fields
           /\ forall key sub, (key, sub) ∈ props ->
                Zod.accepts (jsonSchemaPropertyToZod sub) (Js.prop data key) = true
                \/ (Js.prop data key = VUndefined /\ Js.includes_str names key = false).
Proof.
  intros Et Ep Hne [Hnd Hp] _ Hfit Hr shape. split.
  - destruct (prop_object jsonSchema "type") as [schema_fields ->]; [by rewrite Et |].
    rewrite jsonSchemaToZodSchema_on_fits
      by (rewrite Ep; simpl; exact Hfit).
    unfold jsonSchemaToZodSchema. rewrite Et, Ep, Hr. simpl.
    rewrite translate_required_plain; try done; [| intros k _; apply not_elem_of_nil].
    simpl. fold shape. destruct props; [done | done].
  - intros data. simpl. rewrite accepts_object. unfold shape.
    assert (E : Forall (fun kz => Zod.accepts (snd kz) (Js.prop data (fst kz)) = true)
                  (map (fun kv => (fst kv, top_level_validator names (fst kv) (snd kv))) props)
                <-> forall key sub, (key, sub) ∈ props ->
                      Zod.accepts (jsonSchemaPropertyToZod sub) (Js.prop data key) = true
                      \/ (Js.prop data key = VUndefined
                          /\ Js.includes_str names key = false)).
    { rewrite Forall_map, Forall_forall. simpl.
      assert (Hv : forall key sub,
                 Zod.accepts (top_level_validator names key sub) (Js.prop data key) = true
                 <-> Zod.accepts (jsonSchemaPropertyToZod sub) (Js.prop data key) = true
                     \/ (Js.prop data key = VUndefined
                         /\ Js.includes_str names key = false)).
      { intros key sub. unfold top_level_validator.
        destruct (Js.includes_str names key).
        - intuition discriminate.
        - rewrite accepts_optional_iff. tauto. }
      split.
      - intros H key sub Hin. apply Hv. apply (H (key, sub) Hin).
      - intros H [key sub] Hin. apply Hv. by apply H. }
    split; intros (fields & -> & H); exists fields; (split; [done | by apply E]).
Qed.

Lemma top_level_required_optional_witness :
  let props := [("a", VObj [("type", VStr "string")]); ("b", VObj [("type", VStr "string")])] in
  let shape := map (fun kv => (fst kv, top_level_validator [VStr "a"] (fst kv) (snd kv))) props in
  jsonSchemaToZodSchema_on 1 node_a_b = Ok (RawShape shape)
  /\ forall data,
       Zod.accepts (ZodObject shape) data = true
       <-> exists fields,
           data = VObj fields
           /\ forall key sub, (key, sub) ∈ props ->
                Zod.accepts (jsonSchemaPropertyToZod sub) (Js.prop data key) = true
                \/ (Js.prop data key = VUndefined /\ Js.includes_str [VStr "a"] key = false).
Proof.
  apply (top_level_required_optional 1 node_a_b
           [("a", VObj [("type", VStr "string")]); ("b", VObj [("type", VStr "string")])]
           [VStr "a"] eq_refl eq_refl).
  - discriminate.
  - split.
    + apply NoDup_cons. split.
      * intros H. apply list_elem_of_singleton in H. discriminate.
      * apply NoDup_cons. split; [apply not_elem_of_nil | apply NoDup_nil_2].
    + intros H. repeat (apply elem_of_cons in H as [H | H]; [discriminate |]).
      by apply elem_of_nil in H.
  - intros key H Hm. apply inherited_spec in Hm.
    repeat (apply elem_of_cons in H as [-> | H]; [discriminate |]).
    by apply elem_of_nil in H.
  - intros key sub H.
    repeat (apply elem_of_cons in H as [[= -> ->] | H]; [vm_compute; lia |]).
    by apply elem_of_nil in H.
  - reflexivity.
Defined.

Lemma translate_required_on_throws stack required shape es e :
  translate_required_on stack required shape es = Throw e
  <-> match required with
      | VArr _ | VStr _ =>
          (exists key sub, (key, sub) ∈ es /\ stack < depth sub) /\ e = stack_overflow
      | _ =>
          exists key sub rest,
            es = (key, sub) :: rest
            /\ e = if (depth sub <=? stack)%nat
                   then TypeError "required.includes is not a function"
                   else stack_overflow
      end.
Proof.
  assert (Hgood : forall included : string -> bool,
             (forall key, required_includes required key = Ok (included key)) ->
             forall shape,
               translate_required_on stack required shape es = Throw e
               <-> (exists key sub, (key, sub) ∈ es /\ stack < depth sub)
                   /\ e = stack_overflow).
  { intros included Hinc. induction es as [| [key ps] es IH]; intros sh; simpl.
    - split; [done |]. by intros [(? & ? & ?%elem_of_nil & _) _].
    - rewrite on_stack, Hinc. destruct (Nat.leb_spec (depth ps) stack) as [Hle | Hgt]; simpl.
      + rewrite IH. split; intros [(k & v & Hin & Hd) ->]; (split; [| done]); exists k, v.
        * split; [by right | done].
        * apply elem_of_cons in Hin as [[= -> ->] | Hin]; [lia | done].
      + split; [intros [= <-] | by intros [_ ->]].
        split; [| done]. exists key, ps. split; [left | done]. }
  assert (Hbad :
             (forall key, required_includes required key
                          = Throw (TypeError "required.includes is not a function")) ->
             translate_required_on stack required shape es = Throw e
             <-> exists key sub rest,
                 es = (key, sub) :: rest
                 /\ e = if (depth sub <=? stack)%nat
                        then TypeError "required.includes is not a function"
                        else stack_overflow).
  { intros Hinc. destruct es as [| [key ps] es]; simpl.
    - split; [done |]. by intros (? & ? & ? & [=] & _).
    - rewrite on_stack, Hinc. destruct (Nat.leb_spec (depth ps) stack) as [Hle | Hgt]; simpl.
      + split.
        * intros [= <-]. exists key, ps, es. split; [done |].
          by rewrite (proj2 (Nat.leb_le _ _) Hle).
        * intros (k & v & r & [= <- <- <-] & ->).
          by rewrite (proj2 (Nat.leb_le _ _) Hle).
      + split.
        * intros [= <-]. exists key, ps, es. split; [done |].
          by rewrite (proj2 (Nat.leb_gt _ _) Hgt).
        * intros (k & v & r & [= <- <- <-] & ->).
          by rewrite (proj2 (Nat.leb_gt _ _) Hgt). }
  destruct required as [| | b | q | s | names | fields]; try (by apply Hbad).
  - apply (Hgood (fun key => bool_decide (is_Some (String.index 0 key s)))). done.
  - apply (Hgood (fun key => Js.includes_str names key)). done.
Qed.

(** X10. On a stack of [stack] frames [jsonSchemaToZodSchema] throws only
    for a schema of type ['object'], and only in two ways.  When
    [required] is absent, an array or a string, it throws exactly when
    one of the properties is nested deeper than the stack, and what it
    throws is the [RangeError] of the engine.  When [required] is any
    other truthy value, it throws exactly when there is a property: the
    [RangeError] if the first property is nested deeper than the stack,
    and the [TypeError] of calling [required.includes] otherwise.  In
    every other case it returns. *)
Theorem top_level_throws_on_stack stack jsonSchema e :
  jsonSchemaToZodSchema_on stack jsonSchema = Throw e
  <-> Js.truthy jsonSchema = true
      /\ Js.is_str (Js.prop jsonSchema "type") "object" = true
      /\ let properties := Js.or_else (Js.prop jsonSchema "properties") (VObj []) in
         match Js.or_else (Js.prop jsonSchema "required") (VArr []) with
         | VArr _ | VStr _ =>
             (exists key sub, (key, sub) ∈ Js.entries properties /\ stack < depth sub)
             /\ e = stack_overflow
         | _ =>
             exists key sub rest,
               Js.entries properties = (key, sub) :: rest
               /\ e = if (depth sub <=? stack)%nat
                      then TypeError "required.includes is not a function"
                      else stack_overflow
         end.
Proof.
  unfold jsonSchemaToZodSchema_on.
  destruct (Js.truthy jsonSchema); simpl; [| split; [done | by intros ([=] & _)]].
  destruct (Js.is_str (Js.prop jsonSchema "type") "object"); simpl;
    [| split; [done | by intros (_ & [=] & _)]].
  rewrite <- (translate_required_on_throws stack _ []).
  destruct (translate_required_on _ _ _ _) as [shape | e']; simpl.
  - destruct (Nat.eqb (length shape) 0); split; try done; by intros (_ & _ & [=]).
  - split; [intros [= ->]; done | by intros (_ & _ & [= ->])].
Qed.

Lemma top_level_throws_on_stack_witness :
  jsonSchemaToZodSchema_on 2
    (VObj [("type", VStr "object");
           ("properties", VObj [("a", VObj [("type", VStr "string")]);
                                ("b", nested_arrays 2)])])
  = Throw stack_overflow.
Proof.
  apply (proj2 (top_level_throws_on_stack 2 _ stack_overflow)).
  split; [reflexivity |]. split; [reflexivity |]. simpl. split; [| reflexivity].
  exists "b", (nested_arrays 2). split; [| vm_compute; lia].
  apply list_elem_of_further, list_elem_of_here.
Defined.

(** * Further properties of the start-up *)

Section Discovery.

Variable network : string -> upstream.

Lemma bind_run {A B} (m : Async A) (f : A -> Async B) p q a :
  m p = (q, Ok a) -> (m ≫= f) p = f a q.
Proof. intros H. unfold mbind, Async_bind. by rewrite H. Qed.

Lemma register_ok_inv c t p q :
  register c t p = (q, Ok tt) ->
  exists s, jsonSchemaToZodSchema (tool_inputSchema t) = Ok s
            /\ registry p !! tool_name t = None
            /\ registry q = <[tool_name t := proxy_entry c t s]> (registry p)
            /\ Js.inherited (tool_name t) = false.
Proof.
  intros [(e & _ & _ & [=]) | (s & Hs & H)]%register_inv.
  apply registerTool_inv in H as [(_ & _ & [=]) | (Hfree & _ & Hq & _ & _ & Hin)].
  exists s. done.
Qed.

(** The loop over the tools of one upstream returns only when every
    schema translates, no name occurs twice, no name is in the table
    yet, and no name is a member of [Object.prototype]. *)
Lemma tools_loop_ok_only c ts p p' :
  for_of ts (register c) p = (p', Ok tt) ->
  (forall t, t ∈ ts -> exists s, jsonSchemaToZodSchema (tool_inputSchema t) = Ok s)
  /\ NoDup (map tool_name ts)
  /\ (forall t, t ∈ ts -> registry p !! tool_name t = None)
  /\ (forall t, t ∈ ts -> Js.inherited (tool_name t) = false).
Proof.
  revert p. induction ts as [| t ts IH]; intros p.
  - intros _. split; [by intros ? ?%elem_of_nil |].
    split; [constructor |]. split; by intros ? ?%elem_of_nil.
  - intros (q & (s & Hs & Hfree & Hq & Hin)%register_ok_inv & Hrest)%for_of_ok_cons.
    destruct (IH q Hrest) as (Htr & Hnd & Hfr & Hins).
    assert (Hother : forall t', t' ∈ ts -> tool_name t' <> tool_name t).
    { intros t' Ht' E. specialize (Hfr t' Ht'). rewrite Hq, E, lookup_insert_eq in Hfr. done. }
    split; [| split; [| split]].
    + intros t' [-> | Ht']%elem_of_cons; [by exists s | by apply Htr].
    + simpl. apply NoDup_cons. split; [| done].
      intros (t' & E & Ht')%list_elem_of_fmap. by apply (Hother t' Ht').
    + intros t' [-> | Ht']%elem_of_cons; [done |].
      specialize (Hfr t' Ht'). rewrite Hq, lookup_insert_ne in Hfr; [done |].
      intros E. by apply (Hother t' Ht').
    + intros t' [-> | Ht']%elem_of_cons; [done | by apply Hins].
Qed.

(** After the loop the table holds what it held and the tools of the
    loop, each under its name with the proxy entry of its client. *)
Lemma tools_loop_table c ts p p' :
  for_of ts (register c) p = (p', Ok tt) ->
  (forall name, is_Some (registry p' !! name)
                <-> is_Some (registry p !! name) \/ name ∈ map tool_name ts)
  /\ (forall t, t ∈ ts ->
        exists s, jsonSchemaToZodSchema (tool_inputSchema t) = Ok s
                  /\ registry p' !! tool_name t = Some (proxy_entry c t s)).
Proof.
  revert p. induction ts as [| t ts IH]; intros p.
  - intros [= <-]. split; [| by intros ? ?%elem_of_nil].
    intros name. simpl. rewrite elem_of_nil. tauto.
  - intros (q & Hreg & Hrest)%for_of_ok_cons.
    pose proof Hreg as (s & Hs & Hfree & Hq & _)%register_ok_inv.
    destruct (IH q Hrest) as [Hdom Hent]. split.
    + intros name. rewrite Hdom, Hq, lookup_insert_is_Some. simpl. rewrite elem_of_cons.
      destruct (decide (tool_name t = name)) as [<- | Hne]; [tauto |].
      split; [intros [[? | [_ ?]] | ?]; auto | intros [? | [? | ?]]; auto; congruence].
    + intros t' [-> | Ht']%elem_of_cons; [| by apply Hent].
      exists s. split; [done |].
      apply (tools_loop_keeps _ _ _ _ _ _ _ ltac:(rewrite Hq; apply lookup_insert_eq) Hrest).
Qed.

Lemma tools_loop_wire c ts p p' r :
  for_of ts (register c) p = (p', r) -> wire p' = wire p /\ listening p' = listening p.
Proof.
  apply (for_of_invariant (fun q => wire q = wire p /\ listening q = listening p)); [| done].
  intros t q q' r' _ [Hw Hl] H. rewrite <- Hw, <- Hl.
  apply register_inv in H as [(e & _ & -> & _) | (s & _ & H)]; [done |].
  apply registerTool_inv in H as [(_ & -> & _) | (_ & _ & _ & ? & ? & _)]; done.
Qed.

Lemma listed_ok cfg ts : on_listTools (network (url cfg)) = Ok ts -> listed network cfg = ts.
Proof. intros H. unfold listed. by rewrite H. Qed.

Lemma discover_ok_only cfg p p' :
  discover network cfg p = (p', Ok tt) ->
  answers network cfg
  /\ NoDup (map tool_name (listed network cfg))
  /\ (forall t, t ∈ listed network cfg -> registry p !! tool_name t = None)
  /\ (forall t, t ∈ listed network cfg -> Js.inherited (tool_name t) = false).
Proof.
  intros (Hc & ts & Hl & Hloop)%discover_ok.
  rewrite (listed_ok _ _ Hl).
  destruct (tools_loop_ok_only _ _ _ _ Hloop) as (Htr & Hnd & Hfr & Hin).
  split; [| done]. split; [done |]. by exists ts.
Qed.

Lemma discover_table cfg p p' :
  discover network cfg p = (p', Ok tt) ->
  (forall name, is_Some (registry p' !! name)
                <-> is_Some (registry p !! name)
                    \/ name ∈ map tool_name (listed network cfg))
  /\ (forall t, t ∈ listed network cfg ->
        exists s, jsonSchemaToZodSchema (tool_inputSchema t) = Ok s
                  /\ registry p' !! tool_name t = Some (proxy_entry (client_of cfg) t s))
  /\ wire p' = wire p ++ [Connect (client_of cfg); ListTools (client_of cfg)]
  /\ listening p' = listening p.
Proof.
  intros (Hc & ts & Hl & Hloop)%discover_ok. rewrite (listed_ok _ _ Hl).
  destruct (tools_loop_table _ _ _ _ Hloop) as [Hdom Hent].
  destruct (tools_loop_wire _ _ _ _ _ Hloop) as [Hw Hli].
  done.
Qed.

Lemma discovery_ok_only children p p' :
  for_of children (discover network) p = (p', Ok tt) ->
  (forall cfg, cfg ∈ children -> answers network cfg)
  /\ NoDup (advertised_names network children)
  /\ (forall name, name ∈ advertised_names network children ->
                   registry p !! name = None /\ Js.inherited name = false).
Proof.
  revert p. induction children as [| cfg children IH]; intros p.
  - intros _. split; [by intros ? ?%elem_of_nil |].
    split; [constructor | by intros ? ?%elem_of_nil].
  - change (advertised_names network (cfg :: children))
      with (map tool_name (listed network cfg) ++ advertised_names network children).
    intros (q & Hd & Hrest)%for_of_ok_cons.
    destruct (discover_ok_only _ _ _ Hd) as (Ha & Hnd & Hfr & Hin).
    destruct (discover_table _ _ _ Hd) as (Hdom & _).
    destruct (IH q Hrest) as (Has & Hnds & Hfrs).
    assert (Hq : forall name, name ∈ advertised_names network children ->
                   registry p !! name = None
                   /\ name ∉ map tool_name (listed network cfg)).
    { intros name Hn. destruct (Hfrs name Hn) as [Hnone _].
      apply eq_None_not_Some in Hnone. rewrite Hdom in Hnone.
      split; [apply eq_None_not_Some |]; tauto. }
    split; [| split].
    + intros cfg' [-> | H]%elem_of_cons; [done | by apply Has].
    + apply NoDup_app. split; [done |]. split; [| done].
      intros name H1 H2. by apply (Hq name H2).
    + intros name [(t & -> & Ht)%list_elem_of_fmap | H]%elem_of_app.
      * split; [by apply Hfr | by apply Hin].
      * split; [by apply Hq | by apply Hfrs].
Qed.

Lemma discovery_table children p p' :
  for_of children (discover network) p = (p', Ok tt) ->
  (forall name, is_Some (registry p' !! name)
                <-> is_Some (registry p !! name)
                    \/ name ∈ advertised_names network children)
  /\ (forall cfg t, cfg ∈ children -> t ∈ listed network cfg ->
        exists s, jsonSchemaToZodSchema (tool_inputSchema t) = Ok s
                  /\ registry p' !! tool_name t = Some (proxy_entry (client_of cfg) t s))
  /\ wire p' = wire p ++ handshake children
  /\ listening p' = listening p.
Proof.
  revert p. induction children as [| cfg children IH]; intros p.
  - intros [= <-]. simpl. rewrite app_nil_r.
    split; [intros name; rewrite elem_of_nil; tauto |].
    split; [by intros ? ? ?%elem_of_nil | done].
  - change (advertised_names network (cfg :: children))
      with (map tool_name (listed network cfg) ++ advertised_names network children).
    intros (q & Hd & Hrest)%for_of_ok_cons.
    destruct (discover_table _ _ _ Hd) as (Hdom & Hent & Hw & Hl).
    destruct (IH q Hrest) as (Hdoms & Hents & Hws & Hls).
    split; [| split; [| split]].
    + intros name. rewrite Hdoms, Hdom, elem_of_app. tauto.
    + intros cfg' t [-> | Hc]%elem_of_cons Ht; [| by apply Hents].
      destruct (Hent t Ht) as (s & Hs & He). exists s. split; [done |].
      by apply (discovery_keeps _ _ _ _ _ _ _ He Hrest).
    + rewrite Hws, Hw. simpl. by rewrite <- app_assoc.
    + by rewrite Hls.
Qed.

End Discovery.

Section Outcome.

Variable network : string -> upstream.

Lemma for_of_app_inv {A} (l1 l2 : list A) body p p' r :
  for_of (l1 ++ l2) body p = (p', r) ->
  (exists e, for_of l1 body p = (p', Throw e) /\ r = Throw e)
  \/ (exists q, for_of l1 body p = (q, Ok tt) /\ for_of l2 body q = (p', r)).
Proof.
  revert p. induction l1 as [| x l1 IH]; intros p; simpl app.
  - intros H. right. by exists p.
  - rewrite !for_of_cons.
    intros [(e & Hx & ->) | (q & [] & Hx & Hl)]%bind_inv.
    + left. exists e. split; [| done]. unfold mbind, Async_bind. by rewrite Hx.
    + destruct (IH _ Hl) as [(e & H1 & ->) | (q' & H1 & H2)].
      * left. exists e. split; [| done]. by rewrite (bind_run _ _ _ _ _ Hx).
      * right. exists q'. split; [| done]. by rewrite (bind_run _ _ _ _ _ Hx).
Qed.

(** Whatever the outcome, what one upstream's discovery sends is its
    connection, then its listing. *)
Lemma discover_wire cfg p p' r :
  discover network cfg p = (p', r) ->
  exists ms, wire p' = wire p ++ ms
             /\ ms `prefix_of` [Connect (client_of cfg); ListTools (client_of cfg)]
             /\ (r = Ok tt -> ms = [Connect (client_of cfg); ListTools (client_of cfg)]).
Proof.
  intros [(e & _ & -> & ->) | [(e & _ & -> & ->) | (ts & _ & _ & Hloop)]]%discover_inv.
  - exists [Connect (client_of cfg)]. split; [done |]. split; [| done].
    by exists [ListTools (client_of cfg)].
  - exists [Connect (client_of cfg); ListTools (client_of cfg)]. done.
  - exists [Connect (client_of cfg); ListTools (client_of cfg)].
    destruct (tools_loop_wire _ _ _ _ _ Hloop) as [-> _]. done.
Qed.

Lemma discovery_wire children p p' r :
  for_of children (discover network) p = (p', r) ->
  exists ms, wire p' = wire p ++ ms
             /\ ms `prefix_of` handshake children
             /\ (r = Ok tt -> ms = handshake children).
Proof.
  revert p. induction children as [| cfg children IH]; intros p.
  - intros [= <- <-]. exists []. by rewrite app_nil_r.
  - rewrite for_of_cons.
    intros [(e & (ms & Hw & Hpre & _)%discover_wire & ->)
           | (q & [] & (ms & Hw & _ & Hms)%discover_wire & Hrest)]%bind_inv.
    + exists ms. split; [done |]. split; [| done].
      by apply (prefix_app_r ms _ (handshake children)).
    + destruct (IH _ Hrest) as (ms' & Hw' & Hpre' & Hms').
      rewrite (Hms eq_refl) in Hw.
      exists ([Connect (client_of cfg); ListTools (client_of cfg)] ++ ms').
      split; [by rewrite Hw', Hw, <- app_assoc |]. split.
      * by apply (prefix_app [Connect (client_of cfg); ListTools (client_of cfg)]).
      * intros Hr. by rewrite (Hms' Hr).
Qed.

Lemma main_inv config p r :
  main network config (boot config) = (p, r) ->
  (exists e, for_of (childrenConfig config) (discover network) (boot config) = (p, Throw e)
             /\ r = Throw e)
  \/ (exists q, for_of (childrenConfig config) (discover network) (boot config) = (q, Ok tt)
                /\ r = Ok tt /\ registry p = registry q /\ wire p = wire q
                /\ listening p = true).
Proof.
  unfold main. intros [(e & H & ->) | (q & [] & H & [= <- <-])]%bind_inv.
  - left. by exists e.
  - right. by exists q.
Qed.

(** X11. [main] completes only when every configured upstream accepts
    the connection and lists its tools, the input schema of every listed
    tool translates without a throw, no tool name is listed twice, by
    one upstream or by two, and no listed tool bears the name of a
    member of [Object.prototype] (such as [constructor] or [toString]),
    which the server's table read finds before any registration. *)
Theorem main_completes_only_if config :
  snd (main network config (boot config)) = Ok tt ->
  (forall cfg, cfg ∈ childrenConfig config -> answers network cfg)
  /\ NoDup (advertised_names network (childrenConfig config))
  /\ (forall name, name ∈ advertised_names network (childrenConfig config) ->
                   name ∉ Js.prototype_members).
Proof.
  destruct (main network config (boot config)) as [p r] eqn:Hmain. simpl.
  apply main_inv in Hmain as [(e & Hloop & ->) | (q & Hloop & -> & _)]; [done |].
  intros _. destruct (discovery_ok_only network _ _ _ Hloop) as (Ha & Hnd & Hin).
  split; [done |]. split; [done |].
  intros name Hn Hm. destruct (Hin name Hn) as [_ Hf].
  by rewrite (proj2 (inherited_spec name) Hm) in Hf.
Qed.

(** X12. When [main] completes the gateway listens, the served catalog
    has an entry under exactly the names the configured upstreams listed,
    and the entry of each listed tool is the proxy of that tool: its owner
    is the client of the upstream that listed it, its description is the
    listed one or [''] when there is none, and its input schema is the
    translation of the listed schema. *)
Theorem catalog_after_startup config p :
  main network config (boot config) = (p, Ok tt) ->
  served p = Some (registry p)
  /\ (forall name, is_Some (registry p !! name)
                   <-> name ∈ advertised_names network (childrenConfig config))
  /\ (forall cfg t, cfg ∈ childrenConfig config -> t ∈ listed network cfg ->
        exists s, jsonSchemaToZodSchema (tool_inputSchema t) = Ok s
                  /\ registry p !! tool_name t = Some (proxy_entry (client_of cfg) t s)).
Proof.
  intros [(e & _ & [=]) | (q & Hloop & _ & Hreg & _ & Hl)]%main_inv.
  destruct (discovery_table network _ _ _ Hloop) as (Hdom & Hent & _).
  rewrite Hreg. split; [| split].
  - unfold served. by rewrite Hl, Hreg.
  - intros name. rewrite Hdom. simpl. rewrite lookup_empty.
    split; [intros [[? [=]] | ?]; done | by right].
  - done.
Qed.

(** X13. Whatever the outcome of [main], the requests it has sent are a
    prefix of the handshake: a connection and then a listing for each
    configured upstream, in the configured order, and never a tool call.
    When [main] completes it has sent the whole handshake and nothing
    else. *)
Theorem startup_requests_in_order config :
  let final := main network config (boot config) in
  wire (fst final) `prefix_of` handshake (childrenConfig config)
  /\ (snd final = Ok tt -> wire (fst final) = handshake (childrenConfig config)).
Proof.
  simpl. destruct (main network config (boot config)) as [p r] eqn:Hmain. simpl.
  apply main_inv in Hmain as [(e & Hloop & ->) | (q & Hloop & -> & _ & Hw & _)].
  - destruct (discovery_wire _ _ _ _ Hloop) as (ms & Hms & Hpre & _).
    simpl in Hms. rewrite Hms. done.
  - destruct (discovery_wire _ _ _ _ Hloop) as (ms & Hms & _ & Heq).
    simpl in Hms. rewrite Hw, Hms, (Heq eq_refl). done.
Qed.

Lemma discover_cases cfg p :
  discover network cfg p
  = match on_connect (network (url cfg)) with
    | Throw e => (sent [Connect (client_of cfg)] p, Throw e)
    | Ok _ =>
        match on_listTools (network (url cfg)) with
        | Throw e => (sent [Connect (client_of cfg); ListTools (client_of cfg)] p, Throw e)
        | Ok ts =>
            for_of ts (register (client_of cfg))
              (sent [Connect (client_of cfg); ListTools (client_of cfg)] p)
        end
    end.
Proof.
  unfold discover, connectChildHttp, Client_connect, Client_listTools, send, settle.
  unfold mbind, Async_bind, mret, Async_ret. simpl.
  destruct (on_connect (network (url cfg))) as [[] | e]; [| done].
  rewrite sent_sent. simpl. by destruct (on_listTools (network (url cfg))).
Qed.

(** X14. [main] stops at the first upstream that fails: when an upstream
    refuses the connection, the requests sent are a prefix of the
    handshake of the upstreams configured before it followed by that one
    connection attempt; when it fails to list, a prefix of that followed
    by the listing.  The upstreams configured after it are not
    contacted. *)
Theorem startup_stops_at_first_failure config before cfg after :
  childrenConfig config = before ++ cfg :: after ->
  let final := main network config (boot config) in
  ((exists e, on_connect (network (url cfg)) = Throw e) ->
   wire (fst final) `prefix_of` handshake before ++ [Connect (client_of cfg)])
  /\ ((exists e, on_listTools (network (url cfg)) = Throw e) ->
      wire (fst final)
      `prefix_of` handshake before ++ [Connect (client_of cfg); ListTools (client_of cfg)]).
Proof.
  intros Hl. simpl. destruct (main network config (boot config)) as [p r] eqn:Hmain. simpl.
  assert (Hcases :
            (exists ms, wire p = ms /\ ms `prefix_of` handshake before)
            \/ (exists q p1 r1, wire q = handshake before
                                /\ discover network cfg q = (p1, r1)
                                /\ (r1 = Ok tt \/ p1 = p))).
  { apply main_inv in Hmain as [(e & Hloop & ->) | (q & Hloop & -> & _ & Hw & _)];
      rewrite Hl in Hloop.
    - apply for_of_app_inv in Hloop as [(e' & H1 & _) | (q1 & H1 & H2)].
      + left. destruct (discovery_wire _ _ _ _ H1) as (ms & Hms & Hpre & _).
        exists ms. by rewrite Hms.
      + right. destruct (discovery_wire _ _ _ _ H1) as (ms & Hms & _ & Heq).
        rewrite for_of_cons in H2.
        apply bind_inv in H2 as [(e' & Hd & _) | (q2 & [] & Hd & _)].
        * exists q1, p, (Throw e'). rewrite Hms, (Heq eq_refl). auto.
        * exists q1, q2, (Ok tt). rewrite Hms, (Heq eq_refl). auto.
    - apply for_of_ok_app in Hloop as (q1 & H1 & H2).
      destruct (discovery_wire _ _ _ _ H1) as (ms & Hms & _ & Heq).
      apply for_of_ok_cons in H2 as (q2 & Hd & _).
      right. exists q1, q2, (Ok tt). rewrite Hms, (Heq eq_refl). auto. }
  split.
  - intros [e He]. destruct Hcases as [(ms & -> & Hpre) | (q & p1 & r1 & Hq & Hd & Hr)].
    + by apply prefix_app_r.
    + rewrite discover_cases, He in Hd. injection Hd as <- <-.
      destruct Hr as [[=] | <-]. simpl. by rewrite Hq.
  - intros [e He]. destruct Hcases as [(ms & -> & Hpre) | (q & p1 & r1 & Hq & Hd & Hr)].
    + by apply prefix_app_r.
    + rewrite discover_cases, He in Hd.
      destruct (on_connect (network (url cfg))); injection Hd as <- <-;
        destruct Hr as [[=] | <-]; simpl; rewrite Hq; [done |].
      apply prefix_app. by exists [ListTools (client_of cfg)].
Qed.

End Outcome.

Lemma catalog_after_startup_witness :
  let network := joke_and_name_age in
  let p := fst (main network config (boot config)) in
  served p = Some (registry p)
  /\ (forall name, is_Some (registry p !! name)
                   <-> name ∈ advertised_names network (childrenConfig config))
  /\ (forall cfg t, cfg ∈ childrenConfig config -> t ∈ listed network cfg ->
        exists s, jsonSchemaToZodSchema (tool_inputSchema t) = Ok s
                  /\ registry p !! tool_name t = Some (proxy_entry (client_of cfg) t s)).
Proof.
  apply (catalog_after_startup joke_and_name_age config
           (fst (main joke_and_name_age config (boot config)))).
  vm_compute. reflexivity.
Defined.

Lemma main_completes_only_if_witness :
  let network := joke_and_name_age in
  (forall cfg, cfg ∈ childrenConfig config -> answers network cfg)
  /\ NoDup (advertised_names network (childrenConfig config))
  /\ (forall name, name ∈ advertised_names network (childrenConfig config) ->
                   name ∉ Js.prototype_members).
Proof.
  apply (main_completes_only_if joke_and_name_age config). vm_compute. reflexivity.
Defined.

Lemma startup_stops_at_first_failure_witness :
  let final := main b_unreachable config (boot config) in
  wire (fst final) `prefix_of` handshake [child_a] ++ [Connect (client_of child_b)]
  /\ wire (fst final)
     `prefix_of` handshake [child_a]
                 ++ [Connect (client_of child_b); ListTools (client_of child_b)].
Proof.
  pose proof (startup_stops_at_first_failure b_unreachable config [child_a] child_b []
                eq_refl) as [H1 H2].
  split.
  - apply H1. exists (Rejected "fetch failed"). reflexivity.
  - apply H2. exists (Rejected "Not connected"). reflexivity.
Defined.

(** * Arguments that the schema does not declare *)

Section Undeclared.

Lemma assoc_set_keys {A} k k' (a : A) l :
  k ∈ (Js.assoc_set k' a l).*1 -> k = k' \/ k ∈ l.*1.
Proof.
  induction l as [| [k0 a0] l IH]; simpl.
  - intros H%list_elem_of_singleton. by left.
  - destruct (String.eqb k0 k') eqn:E; simpl.
    + apply String.eqb_eq in E as ->. rewrite !elem_of_cons. tauto.
    + rewrite !elem_of_cons. intros [-> | H]; [tauto |]. destruct (IH H); tauto.
Qed.

Lemma has_key_elem {A} k (l : list (string * A)) : Js.has_key k l = true -> k ∈ l.*1.
Proof.
  unfold Js.has_key. induction l as [| [k0 a0] l IH]; simpl; [done |].
  destruct (String.eqb k0 k) eqn:E.
  - apply String.eqb_eq in E as ->. intros _. left.
  - intros H. right. by apply IH.
Qed.

Lemma object_pairs_keys fields shape acc out :
  object_pairs fields acc shape = Some out ->
  forall k, k ∈ out.*1 -> k ∈ acc.*1 \/ k ∈ shape.*1.
Proof.
  revert acc. induction shape as [| [key z] shape IH]; intros acc; simpl.
  - intros [= <-] k Hk. by left.
  - destruct (Zod.parse z _) as [v |]; simpl; [| done].
    intros H k Hk. destruct (IH _ H k Hk) as [Hacc | Hs].
    + unfold Zod.merge_pair in Hacc. rewrite elem_of_cons.
      destruct (_ && _); [| by left].
      apply assoc_set_keys in Hacc as [-> | ?]; auto.
    + right. by right.
Qed.

Lemma translate_required_keys required es shape sh :
  translate_required required shape es = Ok sh ->
  forall k, k ∈ sh.*1 -> k ∈ shape.*1 \/ k ∈ es.*1.
Proof.
  revert shape. induction es as [| [key ps] es IH]; intros shape; simpl.
  - intros [= <-] k Hk. by left.
  - destruct (required_includes required key) as [included | e]; simpl; [| done].
    intros H k Hk. destruct (IH _ H k Hk) as [Hs | He].
    + unfold shape_assign in Hs. rewrite elem_of_cons.
      destruct (String.eqb key "__proto__"); [by left |].
      apply assoc_set_keys in Hs as [-> | ?]; auto.
    + right. by right.
Qed.

End Undeclared.

(** X15. When [jsonSchemaToZodSchema] returns a raw shape, the object
    validator the server builds from it returns an object that has no key
    other than the names under [properties] of the schema: an argument
    that the schema does not declare is dropped from what the callback
    receives and forwards. *)
Theorem undeclared_arguments_dropped jsonSchema shape raw parsed :
  jsonSchemaToZodSchema jsonSchema = Ok (RawShape shape) ->
  Zod.parse (getZodSchemaObject (RawShape shape)) raw = Some parsed ->
  exists out,
    parsed = VObj out
    /\ forall key, Js.has_key key out = true ->
                   key ∈ (Js.entries (Js.prop jsonSchema "properties")).*1.
Proof.
  intros Hs Hp. change (Zod.parse (ZodObject shape) raw = Some parsed) in Hp.
  destruct raw as [| | | | | | fields]; try discriminate Hp.
  rewrite parse_object in Hp. apply fmap_Some in Hp as (out & Hout & ->).
  exists out. split; [done |]. intros key Hk%has_key_elem.
  destruct (object_pairs_keys _ _ _ _ Hout key Hk) as [H | H];
    [by apply elem_of_nil in H |].
  unfold jsonSchemaToZodSchema in Hs. destruct (_ || _); [done |].
  destruct (translate_required _ _ _) as [sh | e] eqn:E; simpl in Hs; [| done].
  destruct (Nat.eqb (length sh) 0); [done |]. injection Hs as ->.
  destruct (translate_required_keys _ _ _ _ E key H) as [H' | H'];
    [by apply elem_of_nil in H' |].
  unfold Js.or_else in H'. destruct (Js.truthy (Js.prop jsonSchema "properties")); [done |].
  by apply elem_of_nil in H'.
Qed.

Lemma undeclared_arguments_dropped_witness :
  exists out,
    VObj [("name", VStr "sam")] = VObj out
    /\ forall key, Js.has_key key out = true ->
                   key ∈ (Js.entries (Js.prop (tool_inputSchema name_age) "properties")).*1.
Proof.
  exact (undeclared_arguments_dropped (tool_inputSchema name_age)
           [("name", ZodString)]
           (VObj [("name", VStr "sam"); ("extra", VNum 1)])
           (VObj [("name", VStr "sam")]) eq_refl eq_refl).
Defined.

(** * Further properties of a call *)

Section Calls.

Variable network : string -> upstream.

(** X16. A call never changes the tool table, the listening state or
    what is served, whatever the tool name and the arguments: it sends
    nothing, or one [callTool] request to the owner of the called tool
    under that tool's own name.  So the catalog that [main] built is the
    catalog of every later call. *)
Theorem call_keeps_catalog params p :
  let after := fst (CallToolRequest network params p) in
  server after = server p
  /\ listening after = listening p
  /\ served after = served p
  /\ (wire after = wire p
      \/ exists entry args,
           registry p !! call_name params = Some entry
           /\ wire after
              = wire p ++ [CallTool (owner (callback entry))
                             {| call_name := tool_name (proxied (callback entry));
                                call_arguments := args |}]).
Proof.
  unfold CallToolRequest, served.
  destruct (registry p !! call_name params) as [entry |] eqn:He;
    [| destruct (Js.inherited (call_name params)); by auto].
  destruct (Zod.parse (inputSchema entry) (call_arguments params)) as [args |]; [| by auto].
  unfold proxy_call, Client_callTool, send, settle, mbind, Async_bind. simpl.
  repeat split; try done. right. by exists entry, (Js.nullish_or args (VObj [])).
Qed.

(** X17. After [main] has completed, a tool whose listed schema declares
    no property is an open proxy: a call to it with any plain object as
    arguments sends exactly those arguments, unchanged, to the upstream
    that listed the tool, and returns that upstream's answer. *)
Theorem open_tool_forwards_unchanged config p cfg t fields :
  main network config (boot config) = (p, Ok tt) ->
  cfg ∈ childrenConfig config ->
  t ∈ listed network cfg ->
  jsonSchemaToZodSchema (tool_inputSchema t) = Ok (ZodSchema (ZodRecord ZodAny)) ->
  plain_object fields ->
  let call := {| call_name := tool_name t; call_arguments := VObj fields |} in
  CallToolRequest network call p
  = (sent [CallTool (client_of cfg) call] p, on_callTool (network (url cfg)) call).
Proof.
  intros Hmain Hcfg Ht Hs [Hnd Hp] call.
  apply main_inv in Hmain as [(e & _ & [=]) | (q & Hloop & _ & Hreg & _)].
  destruct (discovery_table network _ _ _ Hloop) as (_ & Hent & _).
  destruct (Hent cfg t Hcfg Ht) as (s & Hs' & He).
  assert (s = ZodSchema (ZodRecord ZodAny)) as -> by congruence.
  unfold CallToolRequest. simpl. rewrite Hreg, He.
  change (inputSchema (proxy_entry (client_of cfg) t (ZodSchema (ZodRecord ZodAny))))
    with (ZodRecord ZodAny).
  rewrite parse_record.
  rewrite (record_any_plain fields [] Hnd Hp); [reflexivity |].
  intros k _. apply not_elem_of_nil.
Qed.

End Calls.

Lemma open_tool_forwards_unchanged_witness :
  let p := fst (main joke_and_name_age config (boot config)) in
  let call := {| call_name := "joke"; call_arguments := VObj [("lang", VStr "en")] |} in
  CallToolRequest joke_and_name_age call p
  = (sent [CallTool (client_of child_a) call] p,
     on_callTool (joke_and_name_age (url child_a)) call).
Proof.
  apply (open_tool_forwards_unchanged joke_and_name_age config
           (fst (main joke_and_name_age config (boot config))) child_a joke
           [("lang", VStr "en")]).
  - vm_compute. reflexivity.
  - apply list_elem_of_here.
  - apply list_elem_of_here.
  - reflexivity.
  - split.
    + apply NoDup_cons. split; [apply not_elem_of_nil | apply NoDup_nil_2].
    + intros H. apply list_elem_of_singleton in H. discriminate.
Defined.
